(** * Verification of the CSV-backed mini query engine of input-to-insight-studio

    Sources embedded here:
    - [src/unnamed/part_001]: [loadCSVData] (the part after papaparse
      delivers its records) and the client engine [executeCSVQuery];
    - [src/supabase/functions/execute-sql/index.ts]: [parseCSV],
      [parseCSVLine], [parseCSVRow] and the server engine [executeCSVQuery];
    - [src/unnamed/part_001]: [getCSVSchema];
    - [src/src/components/SQLQueryGenerator.tsx]: [generateSimpleSQL] and
      the choice between server and local result in [executeQuery];
    - [src/src/components/TextProcessor.tsx]: [processText].

    Modelling choices.
    - JS strings are Rocq [string]s over ASCII; [toLowerCase] and [trim]
      act on the ASCII letters and the ASCII white space and line terminators.
    - The five regular expressions of [executeCSVQuery] are embedded as terms
      of a small regex syntax run by a backtracking matcher in continuation
      passing style, with ECMAScript's priorities (greedy quantifiers try
      one more iteration first, lazy ones try to stop first, alternatives
      left to right) and [String.prototype.match]'s leftmost search.
    - [String.prototype.localeCompare] is host (ICU) defined; the engine is
      parameterised by it.
    - [parseFloat] is embedded as the longest-prefix reader of a
      StrDecimalLiteral; its value is kept exact (a rational or an infinity),
      binary64 rounding is not modelled.
    - JS arrays are references: [data.rows] is aliased by [filteredRows]
      until [filter] or [slice] replaces it, and [sort] sorts in place.  The
      engine therefore returns the table as it stands after the call.
    - [Array.prototype.sort] is stable (ECMAScript 2019); it is embedded as a
      stable insertion sort, which agrees with any stable sort for a
      consistent comparator. *)

From Stdlib Require Import String Ascii List Bool Arith Lia ZArith QArith
  Permutation Sorting.Sorted DecimalString.
Import ListNotations.
Open Scope bool_scope.
Open Scope nat_scope.
Open Scope string_scope.

(* ------------------------------------------------------------------ *)
(** ** JS string primitives over ASCII *)

Module JS.

Definition chars (s : string) : list ascii := list_ascii_of_string s.
Definition of_chars (l : list ascii) : string := string_of_list_ascii l.

(** WhiteSpace and LineTerminator code points below 128:
    TAB, LF, VT, FF, CR and SPACE. *)
Definition is_space (c : ascii) : bool :=
  let n := nat_of_ascii c in
  (Nat.eqb n 9) || (Nat.eqb n 10) || (Nat.eqb n 11) || (Nat.eqb n 12)
  || (Nat.eqb n 13) || (Nat.eqb n 32).

Definition is_digit (c : ascii) : bool :=
  let n := nat_of_ascii c in Nat.leb 48 n && Nat.leb n 57.

Definition is_upper (c : ascii) : bool :=
  let n := nat_of_ascii c in Nat.leb 65 n && Nat.leb n 90.

Definition is_lower (c : ascii) : bool :=
  let n := nat_of_ascii c in Nat.leb 97 n && Nat.leb n 122.

(** [\w] *)
Definition is_word (c : ascii) : bool :=
  is_digit c || is_upper c || is_lower c || Ascii.eqb c "_"%char.

(** [.] without the [s] flag: anything but a line terminator. *)
Definition is_dot (c : ascii) : bool :=
  negb (Nat.eqb (nat_of_ascii c) 10 || Nat.eqb (nat_of_ascii c) 13).

Definition lower_char (c : ascii) : ascii :=
  if is_upper c then ascii_of_nat (nat_of_ascii c + 32) else c.

Definition upper_char (c : ascii) : ascii :=
  if is_lower c then ascii_of_nat (nat_of_ascii c - 32) else c.

Definition toLowerCase (s : string) : string :=
  of_chars (map lower_char (chars s)).

Fixpoint drop_space (l : list ascii) : list ascii :=
  match l with
  | c :: r => if is_space c then drop_space r else l
  | [] => []
  end.

Definition trim_chars (l : list ascii) : list ascii :=
  rev (drop_space (rev (drop_space l))).

Definition trim (s : string) : string := of_chars (trim_chars (chars s)).

Fixpoint prefixb (p l : list ascii) : bool :=
  match p, l with
  | [], _ => true
  | a :: p', b :: l' => Ascii.eqb a b && prefixb p' l'
  | _ :: _, [] => false
  end.

Fixpoint includes_chars (l p : list ascii) : bool :=
  prefixb p l || match l with [] => false | _ :: l' => includes_chars l' p end.

(** [s.includes(p)] *)
Definition includes (s p : string) : bool := includes_chars (chars s) (chars p).

(** [s.split(sep)] for a one-character separator. *)
Fixpoint split_chars (sep : ascii) (l : list ascii) : list (list ascii) :=
  match l with
  | [] => [[]]
  | c :: r =>
      if Ascii.eqb c sep then [] :: split_chars sep r
      else match split_chars sep r with
           | w :: ws => (c :: w) :: ws
           | [] => [[c]]
           end
  end.

Definition split (sep : ascii) (s : string) : list string :=
  map of_chars (split_chars sep (chars s)).

(** [s.replace(/[cs]/g, '')] for a character class. *)
Definition remove_chars (p : ascii -> bool) (s : string) : string :=
  of_chars (filter (fun c => negb (p c)) (chars s)).

(** [a.findIndex(f)] *)
Fixpoint findIndex {A} (f : A -> bool) (l : list A) : option nat :=
  match l with
  | [] => None
  | x :: r => if f x then Some 0 else option_map S (findIndex f r)
  end.

End JS.

(* ------------------------------------------------------------------ *)
(** ** Regular expressions with ECMAScript backtracking *)

Module Regex.
Import JS.

(** Every pattern of the engine carries the [i] flag: literal characters are
    compared after canonicalisation (upper case); character classes are not
    affected by it. *)
Inductive re : Type :=
| REps
| RChar (a : ascii)
| RClass (p : ascii -> bool)
| RRep (p : ascii -> bool) (min : nat) (greedy : bool)
| RSeq (r1 r2 : re)
| RAlt (r1 r2 : re)
| RGroup (n : nat) (r : re)
| ROpt (r : re)
| REnd.

Definition caps := list (nat * list ascii).

Fixpoint mt (r : re) (s : list ascii) (c : caps)
  (k : list ascii -> caps -> option caps) {struct r} : option caps :=
  match r with
  | REps => k s c
  | RChar a =>
      match s with
      | x :: s' => if Ascii.eqb (upper_char x) (upper_char a) then k s' c else None
      | [] => None
      end
  | RClass p =>
      match s with
      | x :: s' => if p x then k s' c else None
      | [] => None
      end
  | RRep p mn g =>
      (fix go (n : nat) (s : list ascii) {struct s} : option caps :=
         if g then
           match match s with
                 | x :: s' => if p x then go (pred n) s' else None
                 | [] => None
                 end with
           | Some r => Some r
           | None => if Nat.eqb n 0 then k s c else None
           end
         else
           match (if Nat.eqb n 0 then k s c else None) with
           | Some r => Some r
           | None =>
               match s with
               | x :: s' => if p x then go (pred n) s' else None
               | [] => None
               end
           end) mn s
  | RSeq r1 r2 => mt r1 s c (fun s' c' => mt r2 s' c' k)
  | RAlt r1 r2 =>
      match mt r1 s c k with
      | Some r => Some r
      | None => mt r2 s c k
      end
  | RGroup n r1 =>
      mt r1 s c (fun s' c' => k s' ((n, firstn (length s - length s') s) :: c'))
  | ROpt r1 =>
      match mt r1 s c k with
      | Some r => Some r
      | None => k s c
      end
  | REnd => match s with [] => k s c | _ :: _ => None end
  end.

(** [str.match(re)] without the [g] flag: the leftmost position where the
    pattern matches. *)
Fixpoint search (r : re) (s : list ascii) : option caps :=
  match mt r s [] (fun _ c => Some c) with
  | Some c => Some c
  | None => match s with [] => None | _ :: s' => search r s' end
  end.

Fixpoint group (n : nat) (c : caps) : option string :=
  match c with
  | [] => None
  | (m, v) :: c' => if Nat.eqb n m then Some (of_chars v) else group n c'
  end.

Fixpoint lit_chars (l : list ascii) : re :=
  match l with
  | [] => REps
  | a :: r => RSeq (RChar a) (lit_chars r)
  end.
Definition lit (s : string) : re := lit_chars (chars s).

Definition sp1 : re := RRep is_space 1 true.

Infix ";;" := RSeq (at level 60, right associativity).

(** [/select\s+(.*?)\s+from/i] *)
Definition select_re : re :=
  lit "select" ;; sp1 ;; RGroup 1 (RRep is_dot 0 false) ;; sp1 ;; lit "from".

(** [/where\s+(.+?)(?:\s+order\s+by|\s+limit|$)/i] *)
Definition where_re : re :=
  lit "where" ;; sp1 ;; RGroup 1 (RRep is_dot 1 false) ;;
  RAlt (sp1 ;; lit "order" ;; sp1 ;; lit "by") (RAlt (sp1 ;; lit "limit") REnd).

Definition is_quote (c : ascii) : bool :=
  Ascii.eqb c "'"%char || Ascii.eqb c (ascii_of_nat 34).

(** [/(\w+)\s+like\s+['"](.+)['"]/i] *)
Definition like_re : re :=
  RGroup 1 (RRep is_word 1 true) ;; sp1 ;; lit "like" ;; sp1 ;;
  RClass is_quote ;; RGroup 2 (RRep is_dot 1 true) ;; RClass is_quote.

(** [/order\s+by\s+(\w+)(?:\s+(asc|desc))?/i] *)
Definition order_re : re :=
  lit "order" ;; sp1 ;; lit "by" ;; sp1 ;; RGroup 1 (RRep is_word 1 true) ;;
  ROpt (sp1 ;; RGroup 2 (RAlt (lit "asc") (lit "desc"))).

(** [/limit\s+(\d+)/i] *)
Definition limit_re : re := lit "limit" ;; sp1 ;; RGroup 1 (RRep is_digit 1 true).

End Regex.

(* ------------------------------------------------------------------ *)
(** ** [parseFloat] *)

Module Num.
Import JS.

(** A JS number as far as the engine observes it. *)
Inductive jsnum : Type :=
| Fin (q : Q)
| PInf
| NInf.

(** Sign of [a - b] as [Array.prototype.sort] reads it; the [NaN] of
    [Infinity - Infinity] counts as [+0]. *)
Definition jsnum_compare (a b : jsnum) : comparison :=
  match a, b with
  | Fin x, Fin y => Qcompare x y
  | PInf, PInf | NInf, NInf => Eq
  | PInf, _ | _, NInf => Gt
  | NInf, _ | _, PInf => Lt
  end.

Fixpoint span (p : ascii -> bool) (l : list ascii) : list ascii * list ascii :=
  match l with
  | c :: r => if p c then let '(a, b) := span p r in (c :: a, b) else ([], l)
  | [] => ([], [])
  end.

Definition digits_Z (ds : list ascii) : Z :=
  fold_left (fun acc d => (10 * acc + Z.of_nat (nat_of_ascii d - 48))%Z) ds 0%Z.

(** The exponent part [e[+-]digits], when it is complete. *)
Definition exponent (l : list ascii) : Z * list ascii :=
  match l with
  | e :: r =>
      if Ascii.eqb e "e"%char || Ascii.eqb e "E"%char then
        let '(sg, r') :=
          match r with
          | c :: r'' => if Ascii.eqb c "-"%char then ((-1)%Z, r'')
                       else if Ascii.eqb c "+"%char then (1%Z, r'') else (1%Z, r)
          | [] => (1%Z, r)
          end in
        match span is_digit r' with
        | ([], _) => (0%Z, l)
        | (es, rest) => ((sg * digits_Z es)%Z, rest)
        end
      else (0%Z, l)
  | [] => (0%Z, l)
  end.

(** Longest prefix of the input (after leading white space) that is a
    StrDecimalLiteral, with its value and the unread rest. *)
Definition parseFloat_prefix (s : string) : option (jsnum * list ascii) :=
  let l := drop_space (chars s) in
  let '(neg, l) :=
    match l with
    | c :: r => if Ascii.eqb c "-"%char then (true, r)
               else if Ascii.eqb c "+"%char then (false, r) else (false, l)
    | [] => (false, l)
    end in
  if prefixb (chars "Infinity") l then
    Some (if neg then NInf else PInf, skipn 8 l)
  else
    let '(ds, l1) := span is_digit l in
    let '(fs, l2) :=
      match l1 with
      | c :: r => if Ascii.eqb c "."%char then span is_digit r else ([], l1)
      | [] => ([], l1)
      end in
    match ds, fs with
    | [], [] => None
    | _, _ =>
        let '(e, rest) := exponent l2 in
        let m := digits_Z (ds ++ fs) in
        let q := (inject_Z (if neg then (- m)%Z else m)
                  * Qpower (inject_Z 10) (e - Z.of_nat (length fs)))%Q in
        Some (Fin q, rest)
    end.

(** [parseFloat(s)]; [None] is [NaN]. *)
Definition parseFloat (s : string) : option jsnum :=
  option_map fst (parseFloat_prefix s).

(** [parseInt] of a string of decimal digits. *)
Definition parseInt_digits (s : string) : N := Z.to_N (digits_Z (chars s)).

End Num.

(* ------------------------------------------------------------------ *)
(** ** [Array.prototype.sort] *)

Module Sort.

Section Insertion.
Context {A : Type} (cmp : A -> A -> comparison).

Fixpoint insert (x : A) (l : list A) : list A :=
  match l with
  | [] => [x]
  | y :: l' => match cmp x y with Lt => x :: y :: l' | _ => y :: insert x l' end
  end.

(** Stable: an element is placed after every earlier element it does not
    precede strictly. *)
Definition sort (l : list A) : list A := fold_left (fun acc x => insert x acc) l [].

End Insertion.

End Sort.

(* ------------------------------------------------------------------ *)
(** ** Data model *)

Record CSVData : Type := mkCSVData {
  headers : list string;
  rows : list (list string)
}.

(** [QueryResult]; the field [rows] is named [qr_rows] here. *)
Record QueryResult : Type := mkQueryResult {
  columns : list string;
  qr_rows : list (list string);
  rowCount : nat;
  executionTime : Z
}.

(* ------------------------------------------------------------------ *)
(** ** The client engine [executeCSVQuery] *)

Module Engine.
Import JS Regex Num Sort.

(** The array held by [filteredRows]: the table's own [data.rows] array, or
    an array created during the call. *)
Inductive arrayRef : Type :=
| DataRows
| Fresh (l : list (list string)).

Definition deref (a : arrayRef) (data : CSVData) : list (list string) :=
  match a with DataRows => rows data | Fresh l => l end.

(** [data.headers.findIndex(h => h.toLowerCase() === col.toLowerCase())] *)
Definition headerIndex (hs : list string) (col : string) : option nat :=
  findIndex (fun h => String.eqb (toLowerCase h) (toLowerCase col)) hs.

(** [row[i] || ''] *)
Definition cell (row : list string) (i : nat) : string := nth i row "".

Definition select_capture (nq : string) : option string :=
  match search select_re (chars nq) with Some c => group 1 c | None => None end.

Definition where_capture (nq : string) : option string :=
  match search where_re (chars nq) with Some c => group 1 c | None => None end.

Definition like_capture (wc : string) : option (string * string) :=
  match search like_re (chars wc) with
  | Some c => match group 1 c, group 2 c with
              | Some col, Some pat => Some (col, pat)
              | _, _ => None
              end
  | None => None
  end.

Definition order_capture (nq : string) : option (string * option string) :=
  match search order_re (chars nq) with
  | Some c => match group 1 c with Some col => Some (col, group 2 c) | None => None end
  | None => None
  end.

Definition limit_capture (nq : string) : option N :=
  match search limit_re (chars nq) with
  | Some c => option_map parseInt_digits (group 1 c)
  | None => None
  end.

(** Handle SELECT columns: [(selectedColumns, columnIndices)]. *)
Definition selectStage (nq : string) (data : CSVData) : list string * list nat :=
  let all := (headers data, seq 0 (length (headers data))) in
  match select_capture nq with
  | Some g =>
      if String.eqb (trim g) "*" then all
      else
        let cols := map trim (split "," g) in
        let columnIndices :=
          map (fun col => match headerIndex (headers data) col with
                          | Some i => i
                          | None => 0
                          end) cols in
        (map (fun i => nth i (headers data) "") columnIndices, columnIndices)
  | None => all
  end.

Definition quote_char (c : ascii) : bool :=
  Ascii.eqb c "'"%char || Ascii.eqb c (ascii_of_nat 34).

(** The callback of [data.rows.filter] for the WHERE clause [whereClause]. *)
Definition whereKeep (data : CSVData) (whereClause : string) (row : list string) : bool :=
  if includes whereClause "=" then
    let parts := map trim (split "=" whereClause) in
    let column := nth 0 parts "" in
    let value := nth 1 parts "" in
    match headerIndex (headers data) column with
    | Some columnIndex =>
        let cleanValue := toLowerCase (remove_chars quote_char value) in
        let cellValue := toLowerCase (cell row columnIndex) in
        includes cellValue cleanValue
    | None => true
    end
  else if includes whereClause "like" then
    match like_capture whereClause with
    | Some (column, pattern) =>
        match headerIndex (headers data) column with
        | Some columnIndex =>
            let searchPattern :=
              toLowerCase (remove_chars (fun c => Ascii.eqb c "%"%char) pattern) in
            let cellValue := toLowerCase (cell row columnIndex) in
            includes cellValue searchPattern
        | None => true
        end
    | None => true
    end
  else true.

Definition whereStage (nq : string) (data : CSVData) : arrayRef :=
  match where_capture nq with
  | Some whereClause => Fresh (filter (whereKeep data whereClause) (rows data))
  | None => DataRows
  end.

Section WithLocale.

(** [String.prototype.localeCompare], read through its sign. *)
Variable localeCompare : string -> string -> comparison.

(** The comparator passed to [filteredRows.sort]. *)
Definition orderCompare (desc : bool) (columnIndex : nat) (a b : list string) : comparison :=
  let aVal := cell a columnIndex in
  let bVal := cell b columnIndex in
  match parseFloat aVal, parseFloat bVal with
  | Some aNum, Some bNum => if desc then jsnum_compare bNum aNum else jsnum_compare aNum bNum
  | _, _ => let result := localeCompare aVal bVal in
            if desc then CompOpp result else result
  end.

Definition is_desc (direction : option string) : bool :=
  match direction with Some d => String.eqb (toLowerCase d) "desc" | None => false end.

(** Handle ORDER BY: sorts the array [filteredRows] in place, which is the
    table's own array when no WHERE clause replaced it. *)
Definition orderStage (nq : string) (data : CSVData) (filteredRows : arrayRef)
  : arrayRef * CSVData :=
  match order_capture nq with
  | Some (column, direction) =>
      match headerIndex (headers data) column with
      | Some columnIndex =>
          let cmp := orderCompare (is_desc direction) columnIndex in
          match filteredRows with
          | DataRows => (DataRows, mkCSVData (headers data) (sort cmp (rows data)))
          | Fresh l => (Fresh (sort cmp l), data)
          end
      | None => (filteredRows, data)
      end
  | None => (filteredRows, data)
  end.

Definition limitStage (nq : string) (data : CSVData) (filteredRows : arrayRef) : arrayRef :=
  match limit_capture nq with
  | Some limit => Fresh (firstn (N.to_nat limit) (deref filteredRows data))
  | None => filteredRows
  end.

Definition unsupported (elapsed : Z) : QueryResult :=
  mkQueryResult ["message"] [["Query type not supported. Please use SELECT statements."]]
    1 elapsed.

(** [query.toLowerCase().trim()] *)
Definition normalize (query : string) : string := trim (toLowerCase query).

(** [executeCSVQuery(query, data)], returning the result and the table as it
    stands after the call; [elapsed] is [Date.now() - startTime]. *)
Definition executeCSVQuery (elapsed : Z) (query : string) (data : CSVData)
  : QueryResult * CSVData :=
  let normalizedQuery := normalize query in
  if includes normalizedQuery "select" then
    let '(selectedColumns, columnIndices) := selectStage normalizedQuery data in
    let filteredRows := whereStage normalizedQuery data in
    let '(filteredRows, data') := orderStage normalizedQuery data filteredRows in
    let filteredRows := limitStage normalizedQuery data' filteredRows in
    let resultRows :=
      map (fun row => map (fun i => cell row i) columnIndices) (deref filteredRows data') in
    (mkQueryResult selectedColumns resultRows (length resultRows) elapsed, data')
  else (unsupported elapsed, data).

End WithLocale.

End Engine.

(* ------------------------------------------------------------------ *)
(** ** The loaders *)

Module Loader.
Import JS.

Definition quote : ascii := (ascii_of_nat 34).
Definition newline : string := String (ascii_of_nat 10) EmptyString.

(** The loop of [parseCSVLine]; [result] is kept reversed. *)
Fixpoint parseCSVLine_go (s : list ascii) (current : list ascii) (inQuotes : bool)
  (result : list string) : list string :=
  match s with
  | [] => rev (trim (of_chars current) :: result)
  | c :: r =>
      if Ascii.eqb c quote then
        if inQuotes then
          match r with
          | d :: r' =>
              if Ascii.eqb d quote
              then parseCSVLine_go r' (current ++ [quote]) inQuotes result
              else parseCSVLine_go r current (negb inQuotes) result
          | [] => parseCSVLine_go r current (negb inQuotes) result
          end
        else parseCSVLine_go r current (negb inQuotes) result
      else if Ascii.eqb c ","%char && negb inQuotes then
        parseCSVLine_go r [] inQuotes (trim (of_chars current) :: result)
      else parseCSVLine_go r (current ++ [c]) inQuotes result
  end.

Definition parseCSVLine (line : string) : list string :=
  parseCSVLine_go (chars line) [] false [].

Definition countQuotes (line : string) : nat :=
  length (filter (fun c => Ascii.eqb c quote) (chars line)).

(** [if (row.length > 0) { pad; rows.push(row.slice(0, headers.length)) }] *)
Definition pushRow (width : nat) (row : list string) : list (list string) :=
  if Nat.ltb 0 (length row)
  then [firstn width (row ++ repeat "" (width - length row))]
  else [].

(** Position of the [while (i < lines.length)] loop of [parseCSV] together
    with the inner loop of [parseCSVRow]: either between logical rows, or
    inside one whose quote count is still odd. *)
Inductive rowState : Type :=
| Idle
| Gathering (currentLine : string) (quoteCount : nat).

Fixpoint parseRows (width : nat) (st : rowState) (lines : list string)
  : list (list string) :=
  match lines with
  | [] =>
      match st with
      | Idle => []
      | Gathering currentLine _ => pushRow width (parseCSVLine currentLine)
      end
  | line :: rest =>
      match st with
      | Idle =>
          if String.eqb (trim line) "" then parseRows width Idle rest
          else
            let quoteCount := countQuotes line in
            if Nat.even quoteCount
            then pushRow width (parseCSVLine line) ++ parseRows width Idle rest
            else parseRows width (Gathering line quoteCount) rest
      | Gathering currentLine quoteCount =>
          let currentLine := currentLine ++ newline ++ line in
          let quoteCount := quoteCount + countQuotes line in
          if Nat.even quoteCount
          then pushRow width (parseCSVLine currentLine) ++ parseRows width Idle rest
          else parseRows width (Gathering currentLine quoteCount) rest
      end
  end.

(** [parseCSV(csvText)] of the server function. *)
Definition parseCSV (csvText : string) : CSVData :=
  match split (ascii_of_nat 10) csvText with
  | [] => mkCSVData [] []
  | line0 :: rest =>
      let hs := parseCSVLine line0 in
      mkCSVData hs (parseRows (length hs) Idle rest)
  end.

(** Outcome of the promise returned by [loadCSVData]. *)
Inductive promise (A : Type) : Type :=
| Resolve (a : A)
| Reject (message : string).
Arguments Resolve {A} a.
Arguments Reject {A} message.

(** The [complete] callback of [loadCSVData], given the records
    [results.data] delivered by papaparse. *)
Definition loadCSVData_complete (data : list (list string)) : promise CSVData :=
  match data with
  | [] => Reject "No data found in CSV"
  | d0 :: rest =>
      let hs := map trim d0 in
      let keep (row : list string) :=
        existsb (fun c => negb (String.eqb c "") && negb (String.eqb (trim c) "")) row in
      let normalize (row : list string) :=
        map (fun c => if String.eqb c "" then "" else trim c)
            (firstn (length hs) (row ++ repeat "" (length hs - length row))) in
      Resolve (mkCSVData hs (map normalize (filter keep rest)))
  end.

End Loader.

(* ------------------------------------------------------------------ *)
(** ** The server engine [executeCSVQuery] of the [execute-sql] function *)

(** It reads the same regular expressions as the client engine and shares
    [selectStage]; it has no LIKE branch and no ORDER BY stage, and it reads
    a missing cell as [undefined] in its WHERE test. *)
Module ServerEngine.
Import JS Num Engine.

(** The callback of [data.rows.filter] for the WHERE clause [whereClause]. *)
Definition whereKeep (data : CSVData) (whereClause : string) (row : list string) : bool :=
  if includes whereClause "=" then
    let parts := map trim (split "=" whereClause) in
    let column := nth 0 parts "" in
    let value := nth 1 parts "" in
    match headerIndex (headers data) column with
    | Some columnIndex =>
        let cleanValue := remove_chars quote_char value in
        (* [row[columnIndex]?.toLowerCase().includes(...)]: [undefined] is falsy *)
        match nth_error row columnIndex with
        | Some c => includes (toLowerCase c) (toLowerCase cleanValue)
        | None => false
        end
    | None => true
    end
  else true.

Definition executeCSVQuery (elapsed : Z) (query : string) (data : CSVData) : QueryResult :=
  let normalizedQuery := normalize query in
  if includes normalizedQuery "select" then
    let '(selectedColumns, columnIndices) := selectStage normalizedQuery data in
    let filteredRows :=
      match where_capture normalizedQuery with
      | Some whereClause => filter (whereKeep data whereClause) (rows data)
      | None => rows data
      end in
    let filteredRows :=
      match limit_capture normalizedQuery with
      | Some limit => firstn (N.to_nat limit) filteredRows
      | None => filteredRows
      end in
    let resultRows :=
      map (fun row => map (fun i => cell row i) columnIndices) filteredRows in
    mkQueryResult selectedColumns resultRows (length resultRows) elapsed
  else unsupported elapsed.

End ServerEngine.

(* ------------------------------------------------------------------ *)
(** ** [getCSVSchema] of the client *)

Module Schema.
Import JS.

Definition nl : string := String (ascii_of_nat 10) EmptyString.
Definition dq : string := String (ascii_of_nat 34) EmptyString.

(** [String(n)] of a natural number. *)
Definition string_of_nat (n : nat) : string := NilZero.string_of_uint (Nat.to_uint n).



End Schema.

(* ------------------------------------------------------------------ *)
(** ** [SQLQueryGenerator]: [generateSimpleSQL] and [executeQuery] *)

Module Generator.
Import JS.

Definition top_industries_sql : string :=
  "SELECT Industry_name_NZSIOC, Value FROM survey_data WHERE Variable_name = 'Total income' ORDER BY CAST(Value AS DECIMAL) DESC LIMIT 10".

(** The rule-based fallback translating a question into SQL. *)
Definition generateSimpleSQL (query : string) : string :=
  let lowerQuery := toLowerCase query in
  if includes lowerQuery "all" && includes lowerQuery "data" then
    "SELECT * FROM survey_data LIMIT 100"
  else if includes lowerQuery "total income" then
    "SELECT * FROM survey_data WHERE Variable_name = 'Total income' LIMIT 50"
  else if includes lowerQuery "agriculture" || includes lowerQuery "farming" then
    "SELECT * FROM survey_data WHERE Industry_name_NZSIOC LIKE '%Agriculture%' LIMIT 50"
  else if includes lowerQuery "financial performance" then
    "SELECT * FROM survey_data WHERE Variable_category = 'Financial performance' LIMIT 50"
  else if includes lowerQuery "employment" then
    "SELECT * FROM survey_data WHERE Variable_category = 'Employment' LIMIT 50"
  else if includes lowerQuery "industry" && includes lowerQuery "top" then
    top_industries_sql
  else "SELECT * FROM survey_data LIMIT 20".

(** The JSON body of an [execute-sql] response, as [executeQuery] reads it:
    [{ error }] or a query result. *)
Inductive serverBody : Type :=
| BodyError (message : string)
| BodyResult (r : QueryResult).

(** What [await fetch(...)] gives: a rejection or a response with its
    [ok] flag. *)
Inductive fetchOutcome : Type :=
| FetchRejects (message : string)
| Fetched (ok : bool) (body : serverBody).

Inductive resultSource : Type := FromServer | FromLocal.

(** What [executeQuery] leaves in the component: a result set by
    [setQueryResult] (with the path that produced it) or an error message
    set by [setError]. *)
Inductive queryOutcome : Type :=
| Shown (source : resultSource) (r : QueryResult)
| Failed (message : string).

Section WithLocale.
Variable localeCompare : string -> string -> comparison.

(** [executeQuery(sqlQuery)] with the component state [useLocalCSV] and
    [csvData]; [response] is the outcome of the [fetch] call, made only when
    [useLocalCSV] is false. *)
Definition executeQuery (elapsed : Z) (useLocalCSV : bool) (response : fetchOutcome)
  (sqlQuery : string) (csvData : option CSVData) : queryOutcome :=
  let local :=
    match csvData with
    | Some d => Shown FromLocal (fst (Engine.executeCSVQuery localeCompare elapsed sqlQuery d))
    | None => Failed "No CSV data available for local processing"
    end in
  if useLocalCSV then local
  else
    match response with
    | FetchRejects message => Failed message
    | Fetched true (BodyError message) =>
        (* [if (data.error) throw]: an empty message is falsy *)
        if String.eqb message "" then Shown FromServer (mkQueryResult [] [] 0 0)
        else Failed message
    | Fetched true (BodyResult r) => Shown FromServer r
    | Fetched false _ => local
    end.

End WithLocale.

End Generator.

(* ------------------------------------------------------------------ *)
(** ** [TextProcessor]: [processText] *)

Module Text.
Import JS.

Definition toUpperCase (s : string) : string := of_chars (map upper_char (chars s)).

(** [s.split(/\s+/)]: the pieces between maximal runs of white space;
    [inRun] holds when the previous character was white space. *)
Fixpoint split_ws_go (l : list ascii) (inRun : bool) : list (list ascii) :=
  match l with
  | [] => [[]]
  | c :: r =>
      if is_space c then
        if inRun then split_ws_go r true else [] :: split_ws_go r true
      else match split_ws_go r false with
           | w :: ws => (c :: w) :: ws
           | [] => [[c]]
           end
  end.

Definition split_ws (s : string) : list string := map of_chars (split_ws_go (chars s) false).

(** [text.replace(/\w\S*/g, txt => txt.charAt(0).toUpperCase() +
    txt.substr(1).toLowerCase())].  A match starts at a word character and,
    [\S*] being greedy, runs to the next white space; [inMatch] holds inside
    a match. *)
Fixpoint titleCase_go (l : list ascii) (inMatch : bool) : list ascii :=
  match l with
  | [] => []
  | c :: r =>
      if inMatch && negb (is_space c) then lower_char c :: titleCase_go r true
      else if is_word c then upper_char c :: titleCase_go r true
      else c :: titleCase_go r false
  end.

Definition titleCase (text : string) : string := of_chars (titleCase_go (chars text) false).

(** [value] of a [ProcessingResult]. *)
Inductive resultValue : Type :=
| VNum (n : nat)
| VStr (s : string).

(** [Math.ceil(n / 200)] *)
Definition ceil_div200 (n : nat) : nat := (n + 199) / 200.

(** The [results] set by [processText(text)], as [(type, value)] pairs. *)
Definition processText (text : string) : list (string * resultValue) :=
  if String.eqb (trim text) "" then []
  else
    [("Character Count", VNum (String.length text));
     ("Word Count",
       VNum (length (filter (fun w => Nat.ltb 0 (String.length w)) (split_ws (trim text)))));
     ("Uppercase", VStr (toUpperCase text));
     ("Lowercase", VStr (toLowerCase text));
     ("Title Case", VStr (titleCase text));
     ("Reversed", VStr (of_chars (rev (chars text))));
     ("Line Count", VNum (length (split (ascii_of_nat 10) text)));
     ("Reading Time",
       VStr (Schema.string_of_nat (ceil_div200 (length (split_ws (trim text)))) ++ " min"))].

End Text.

(* ------------------------------------------------------------------ *)
(** ** Standard CSV quoting, to state the round trip of [parseCSVLine] *)

Module CSVWriter.
Import JS.

(** Doubles every double quote. *)
Fixpoint escape (l : list ascii) : list ascii :=
  match l with
  | [] => []
  | c :: r => if Ascii.eqb c Loader.quote then Loader.quote :: Loader.quote :: escape r
              else c :: escape r
  end.

(** A field in double quotes, with its inner quotes doubled. *)
Definition quoteField (s : string) : string :=
  of_chars (Loader.quote :: escape (chars s) ++ [Loader.quote]).

(** A record line: the quoted fields joined with commas. *)
Definition quoteLine (fields : list string) : string :=
  String.concat "," (map quoteField fields).

(** A file: the header line, then each record on a line of its own. *)
Fixpoint quoteRecords (records : list (list string)) : string :=
  match records with
  | [] => EmptyString
  | fields :: rest => Loader.newline ++ quoteLine fields ++ quoteRecords rest
  end.

Definition quoteCSV (headerFields : list string) (records : list (list string)) : string :=
  quoteLine headerFields ++ quoteRecords records.

End CSVWriter.

(* ------------------------------------------------------------------ *)
(** ** An independent word count, to characterise [processText] *)

Module TextReading.
Import JS.

(** The number of maximal runs of non-white-space characters of [l];
    [prevSpace] holds at the start and after white space. *)
Fixpoint word_runs (l : list ascii) (prevSpace : bool) : nat :=
  match l with
  | [] => 0
  | c :: r => if is_space c then word_runs r true
              else (if prevSpace then 1 else 0) + word_runs r false
  end.

End TextReading.

(* ------------------------------------------------------------------ *)
(** ** Quote parity of a text, to follow the rows of [parseCSV] *)

Module CSVAnalysis.
Import JS.

Definition LF : ascii := ascii_of_nat 10.

(** The number of double quotes of [l]. *)
Definition cq (l : list ascii) : nat := length (filter (fun c => Ascii.eqb c Loader.quote) l).

(** Scans [l] with the parity of the quotes seen so far ([odd]); fails at a
    line feed met at even parity, and gives the final parity otherwise. *)
Fixpoint nl_scan (l : list ascii) (odd : bool) : option bool :=
  match l with
  | [] => Some odd
  | c :: r =>
      if Ascii.eqb c LF then (if odd then nl_scan r odd else None)
      else if Ascii.eqb c Loader.quote then nl_scan r (negb odd)
      else nl_scan r odd
  end.

(** The pieces [ps] of a logical row, after [qc] quotes: every running quote
    count is odd but the last, which is even. *)
Fixpoint parity_ok (ps : list (list ascii)) (qc : nat) : Prop :=
  match ps with
  | [] => False
  | [p] => Nat.even (qc + cq p) = true
  | p :: ps' => Nat.even (qc + cq p) = false /\ parity_ok ps' (qc + cq p)
  end.

(** The pieces joined back with line feeds. *)
Fixpoint join (ps : list (list ascii)) : list ascii :=
  match ps with
  | [] => []
  | [p] => p
  | p :: ps' => p ++ LF :: join ps'
  end.

End CSVAnalysis.

(* ------------------------------------------------------------------ *)
(** ** Readings of the specification, to be compared with the code *)

Module SpecReading.
Import JS Num Engine.

(** The [=] filter as the specification words it: the clause is split at
    its first [=]; the value token is all the text after it. *)
Definition spec_eq_keep (data : CSVData) (whereClause : string) (row : list string) : bool :=
  let l := chars whereClause in
  let column := trim (of_chars (fst (Num.span (fun c => negb (Ascii.eqb c "="%char)) l))) in
  let value := trim (of_chars (skipn 1 (snd (Num.span (fun c => negb (Ascii.eqb c "="%char)) l)))) in
  match headerIndex (headers data) column with
  | Some columnIndex =>
      includes (toLowerCase (cell row columnIndex))
               (toLowerCase (remove_chars quote_char value))
  | None => true
  end.

(** A cell that is a number in its entirety. *)
Definition spec_number (s : string) : option jsnum :=
  match parseFloat_prefix s with
  | Some (v, []) => Some v
  | _ => None
  end.

(** The ORDER BY comparison as the specification words it: numeric when both
    cells are numbers, otherwise lexicographic. *)
Definition spec_order_compare (desc : bool) (columnIndex : nat) (a b : list string)
  : comparison :=
  let aVal := cell a columnIndex in
  let bVal := cell b columnIndex in
  let r := match spec_number aVal, spec_number bVal with
           | Some x, Some y => jsnum_compare x y
           | _, _ => String.compare aVal bVal
           end in
  if desc then CompOpp r else r.

(** The LIKE filter as the specification words it: the rows whose cell
    contains, case-insensitively, the pattern without its [%] signs. *)
Definition spec_like_rows (rs : list (list string)) (columnIndex : nat) (pattern : string)
  : list (list string) :=
  filter (fun row => includes (toLowerCase (cell row columnIndex))
                              (toLowerCase (remove_chars (fun c => Ascii.eqb c "%"%char) pattern)))
         rs.

End SpecReading.

(* ------------------------------------------------------------------ *)
(** ** Concrete inputs *)

Module Fixtures.

Definition survey : CSVData :=
  mkCSVData ["Year"; "Industry_name_NZSIOC"; "Value"]
    [["2024"; "Agriculture, Forestry and Fishing"; "10"];
     ["2023"; "All industries"; "7"]].

Definition q_unresolved : string := "SELECT nonexistent_col FROM t".
Definition q_no_from : string := "select everything".
Definition q_like : string := "SELECT * FROM t WHERE Industry_name_NZSIOC LIKE '%agri%'".
Definition q_order : string := "SELECT * FROM t ORDER BY Value DESC LIMIT 1".

(** Inputs on which the code and a claim part ways. *)
Definition q_order_a : string := "select * from t order by a".
Definition t_21 : CSVData := mkCSVData ["a"] [["2"]; ["1"]].
Definition q_eq_twice : string := "select * from t where a = 'x=y'".
Definition t_x : CSVData := mkCSVData ["a"] [["x"]].
Definition t_10x_9x : CSVData := mkCSVData ["a"] [["10x"]; ["9x"]].

(** Inputs of the sanity examples of the embedding. *)
Definition t1 : CSVData := mkCSVData ["Name"; "Value"] [["b"; "10"]; ["a"; "2"]; ["c"; "x"]].

Definition num_is (s : string) (q : Q) : bool :=
  match Num.parseFloat s with Some (Num.Fin x) => Qeq_bool x q | _ => false end.

Definition nl : string := Loader.newline.
Definition dq : string := String Loader.quote EmptyString.

End Fixtures.

(* ------------------------------------------------------------------ *)
(** ** Lemmas *)

Module Facts.
Import JS Regex Num Sort Engine Loader SpecReading.
Local Open Scope list_scope.

Lemma chars_of_chars (l : list ascii) : chars (of_chars l) = l.
Proof. apply list_ascii_of_string_of_list_ascii. Qed.

Lemma prefixb_spec (p l : list ascii) : prefixb p l = true <-> exists b, l = p ++ b.
Proof.
  revert l; induction p as [|a p IH]; intros l; simpl.
  - split; [intros _; exists l; reflexivity | auto].
  - destruct l as [|c l].
    + split; [discriminate | intros [b Hb]; discriminate].
    + rewrite andb_true_iff, IH.
      split.
      * intros [Ha [b Hb]]. apply Ascii.eqb_eq in Ha. subst. exists b. reflexivity.
      * intros [b Hb]. inversion Hb; subst.
        split; [apply Ascii.eqb_refl | exists b; reflexivity].
Qed.

Lemma includes_chars_spec (l p : list ascii) :
  includes_chars l p = true <-> exists a b, l = a ++ p ++ b.
Proof.
  induction l as [|c l IH]; simpl.
  - rewrite orb_false_r, prefixb_spec. split.
    + intros [b Hb]. exists [], b. exact Hb.
    + intros [a [b Hab]]. destruct a; [|discriminate]. exists b. exact Hab.
  - rewrite orb_true_iff, prefixb_spec, IH. split.
    + intros [[b Hb] | [a [b Hab]]].
      * exists [], b. exact Hb.
      * exists (c :: a), b. rewrite Hab. reflexivity.
    + intros [a [b Hab]]. destruct a as [|c' a].
      * left. exists b. exact Hab.
      * right. inversion Hab; subst. exists a, b. reflexivity.
Qed.

Lemma drop_space_suffix (l : list ascii) : exists a, l = a ++ drop_space l.
Proof.
  induction l as [|c l [a Ha]]; simpl.
  - exists []. reflexivity.
  - destruct (is_space c).
    + exists (c :: a). simpl. rewrite <- Ha. reflexivity.
    + exists []. reflexivity.
Qed.

Lemma trim_chars_infix (l : list ascii) : exists a b, l = a ++ trim_chars l ++ b.
Proof.
  destruct (drop_space_suffix l) as [a1 H1].
  destruct (drop_space_suffix (rev (drop_space l))) as [a2 H2].
  exists a1, (rev a2). unfold trim_chars.
  rewrite <- rev_app_distr, <- H2, rev_involutive. exact H1.
Qed.

(** What the engine tests on [query.toLowerCase().trim()] holds of
    [query.toLowerCase()]. *)
Lemma includes_normalize (q p : string) :
  includes (normalize q) p = true -> includes (toLowerCase q) p = true.
Proof.
  unfold includes, normalize, trim. rewrite chars_of_chars.
  rewrite !includes_chars_spec. intros [a [b Hab]].
  destruct (trim_chars_infix (chars (toLowerCase q))) as [a' [b' H]].
  rewrite Hab in H. exists (a' ++ a), (b ++ b'). rewrite H.
  rewrite <- !app_assoc. reflexivity.
Qed.

Section SortFacts.
Context {A : Type} (cmp : A -> A -> comparison).

Lemma insert_perm (x : A) (l : list A) : Permutation (insert cmp x l) (x :: l).
Proof.
  induction l as [|y l IH]; simpl; [reflexivity|].
  destruct (cmp x y); try reflexivity;
    (eapply perm_trans; [apply perm_skip, IH | apply perm_swap]).
Qed.

Lemma sort_perm (l : list A) : Permutation (sort cmp l) l.
Proof.
  unfold sort.
  assert (G : forall acc, Permutation (fold_left (fun acc x => insert cmp x acc) l acc)
                                      (acc ++ l)).
  { induction l as [|x l IH]; intros acc; simpl.
    - rewrite app_nil_r. reflexivity.
    - rewrite IH, insert_perm. apply Permutation_middle. }
  apply G.
Qed.

Hypothesis cmp_antisym : forall a b, cmp b a = CompOpp (cmp a b).

Let R (a b : A) : Prop := cmp a b <> Gt.

Lemma R_flip (a b : A) : cmp a b <> Lt -> R b a.
Proof.
  intros H. unfold R. rewrite cmp_antisym.
  destruct (cmp a b); simpl; intros E; congruence.
Qed.

Lemma insert_sorted (x : A) (l : list A) :
  LocallySorted R l -> LocallySorted R (insert cmp x l).
Proof.
  induction l as [|y l IH]; intros H; simpl.
  - constructor.
  - destruct (cmp x y) eqn:E.
    + (* equal keys: [x] goes after [y] *)
      destruct l as [|z l]; simpl.
      * constructor; [constructor | apply R_flip; congruence].
      * inversion H; subst.
        specialize (IH H2). simpl in IH.
        destruct (cmp x z) eqn:E2.
        -- constructor; [exact IH | exact H4].
        -- constructor; [exact IH | apply R_flip; congruence].
        -- constructor; [exact IH | exact H4].
    + constructor; [exact H | unfold R; congruence].
    + destruct l as [|z l]; simpl.
      * constructor; [constructor | apply R_flip; congruence].
      * inversion H; subst.
        specialize (IH H2). simpl in IH.
        destruct (cmp x z) eqn:E2.
        -- constructor; [exact IH | exact H4].
        -- constructor; [exact IH | apply R_flip; congruence].
        -- constructor; [exact IH | exact H4].
Qed.

Lemma sort_sorted (l : list A) : LocallySorted R (sort cmp l).
Proof.
  unfold sort.
  assert (G : forall acc, LocallySorted R acc ->
              LocallySorted R (fold_left (fun acc x => insert cmp x acc) l acc)).
  { induction l as [|x l IH]; intros acc Hacc; simpl; [exact Hacc|].
    apply IH, insert_sorted, Hacc. }
  apply G. constructor.
Qed.

End SortFacts.

(** *** The stages of [executeCSVQuery] *)

Definition project (columnIndices : list nat) (row : list string) : list string :=
  map (fun i => cell row i) columnIndices.

Lemma whereStage_incl (nq : string) (t : CSVData) (r : list string) :
  In r (deref (whereStage nq t) t) -> In r (rows t).
Proof.
  unfold whereStage. destruct (where_capture nq); simpl; [|auto].
  intros H. apply filter_In in H. apply H.
Qed.

Lemma orderStage_perm lc (nq : string) (t : CSVData) (a : arrayRef) :
  Permutation (deref (fst (orderStage lc nq t a)) (snd (orderStage lc nq t a))) (deref a t).
Proof.
  unfold orderStage.
  destruct (order_capture nq) as [[column direction]|]; [|reflexivity].
  destruct (headerIndex (headers t) column); [|reflexivity].
  destruct a; simpl; apply sort_perm.
Qed.

Lemma limitStage_deref (nq : string) (t : CSVData) (a : arrayRef) :
  deref (limitStage nq t a) t =
  match limit_capture nq with
  | Some n => firstn (N.to_nat n) (deref a t)
  | None => deref a t
  end.
Proof. unfold limitStage. destruct (limit_capture nq); reflexivity. Qed.

(** The result of a SELECT query: projection of the rows left by the WHERE,
    ORDER BY and LIMIT stages; the table afterwards is the one the ORDER BY
    stage leaves. *)
Lemma execute_pipeline lc el (q : string) (t : CSVData) :
  includes (normalize q) "select" = true ->
  let nq := normalize q in
  let o := orderStage lc nq t (whereStage nq t) in
  let limited := match limit_capture nq with
                 | Some n => firstn (N.to_nat n) (deref (fst o) (snd o))
                 | None => deref (fst o) (snd o)
                 end in
  executeCSVQuery lc el q t =
  (mkQueryResult (fst (selectStage nq t)) (map (project (snd (selectStage nq t))) limited)
     (length limited) el, snd o).
Proof.
  intros H nq o limited. unfold executeCSVQuery. fold nq. fold nq in H. rewrite H.
  destruct (selectStage nq t) as [sc ci].
  fold o. destruct o as [fr t'] eqn:Eo.
  unfold limited. rewrite <- limitStage_deref. simpl.
  rewrite length_map. reflexivity.
Qed.

Lemma execute_rows lc el (q : string) (t : CSVData) :
  includes (normalize q) "select" = true ->
  exists surv,
    (forall r, In r surv -> In r (deref (whereStage (normalize q) t) t)) /\
    (limit_capture (normalize q) = None ->
       Permutation surv (deref (whereStage (normalize q) t) t)) /\
    fst (executeCSVQuery lc el q t) =
    mkQueryResult (fst (selectStage (normalize q) t))
      (map (project (snd (selectStage (normalize q) t))) surv) (length surv) el.
Proof.
  intros H. rewrite (execute_pipeline lc el q t H). simpl.
  set (nq := normalize q).
  pose proof (orderStage_perm lc nq t (whereStage nq t)) as P.
  eexists. split; [|split; [|reflexivity]].
  - intros r Hr. apply (Permutation_in _ P).
    destruct (limit_capture nq); [|exact Hr].
    rewrite <- (firstn_skipn (N.to_nat n) (deref _ _)). apply in_or_app. left. exact Hr.
  - intros E. rewrite E. exact P.
Qed.

Lemma map_nth_seq_app (r l : list string) :
  map (fun i => nth i (l ++ r) "") (seq (length l) (length r)) = r.
Proof.
  revert l. induction r as [|c r IHr]; intros l; simpl; [reflexivity|].
  rewrite app_nth2 by lia. rewrite Nat.sub_diag. simpl. f_equal.
  replace (l ++ c :: r) with ((l ++ [c]) ++ r) by (rewrite <- app_assoc; reflexivity).
  replace (S (length l)) with (length (l ++ [c])) by (rewrite length_app; simpl; lia).
  apply IHr.
Qed.

Lemma project_all (W : nat) (rs : list (list string)) :
  Forall (fun r => length r = W) rs -> map (project (seq 0 W)) rs = rs.
Proof.
  intros H. induction H as [|r rs Hr _ IH]; simpl; [reflexivity|].
  f_equal; [|exact IH].
  subst W. unfold project, cell. apply (map_nth_seq_app r []).
Qed.

Lemma jsnum_compare_antisym (a b : jsnum) : jsnum_compare b a = CompOpp (jsnum_compare a b).
Proof. destruct a, b; simpl; try reflexivity. rewrite Qcompare_antisym. reflexivity. Qed.

Lemma orderCompare_antisym lc (d : bool) (i : nat) :
  (forall a b, lc b a = CompOpp (lc a b)) ->
  forall a b, orderCompare lc d i b a = CompOpp (orderCompare lc d i a b).
Proof.
  intros Hlc a b. unfold orderCompare.
  destruct (parseFloat (cell a i)), (parseFloat (cell b i)), d;
    first [ apply jsnum_compare_antisym
          | rewrite (Hlc (cell a i) (cell b i)); reflexivity ].
Qed.

(** *** The loaders *)




(** With a WHERE clause, [filteredRows] is a new array before the sort, and
    the table is left as it was. *)
Lemma execute_frame_with_where lc el (q : string) (t : CSVData) :
  where_capture (normalize q) <> None -> snd (executeCSVQuery lc el q t) = t.
Proof.
  intros Hw. destruct (includes (normalize q) "select") eqn:Hs.
  - rewrite (execute_pipeline lc el q t Hs). simpl.
    unfold whereStage. destruct (where_capture (normalize q)); [|congruence].
    unfold orderStage.
    destruct (order_capture (normalize q)) as [[column direction]|]; [|reflexivity].
    destruct (headerIndex (headers t) column); reflexivity.
  - unfold executeCSVQuery. cbv zeta. rewrite Hs. reflexivity.
Qed.

End Facts.

(* ------------------------------------------------------------------ *)
(** ** The claims *)

Module Claims.
Import JS Regex Num Sort Engine Loader SpecReading Facts.
Local Open Scope list_scope.

Definition unsupported_message : string :=
  "Query type not supported. Please use SELECT statements.".

(** C4: a query whose lower-cased text does not contain [select] yields,
    without failing, the one-row result [["message"]] /
    [[unsupported_message]] with [rowCount = 1] (and leaves the table as it
    was). *)
Theorem C4_unsupported_query_message lc el (q : string) (t : CSVData) :
  includes (toLowerCase q) "select" = false ->
  executeCSVQuery lc el q t =
  (mkQueryResult ["message"] [[unsupported_message]] 1 el, t).
Proof.
  intros H. unfold executeCSVQuery. cbv zeta.
  destruct (includes (normalize q) "select") eqn:E.
  - apply includes_normalize in E. congruence.
  - reflexivity.
Qed.

Lemma C4_witness :
  includes (toLowerCase "DROP TABLE survey_data") "select" = false /\
  executeCSVQuery String.compare 7 "DROP TABLE survey_data" (mkCSVData ["a"] [["1"]]) =
  (mkQueryResult ["message"] [[unsupported_message]] 1 7, mkCSVData ["a"] [["1"]]).
Proof.
  split.
  - vm_compute. reflexivity.
  - apply C4_unsupported_query_message. vm_compute. reflexivity.
Defined.

(** C5: when the column list captured by [select\s+(.*?)\s+from] is not [*]
    and its [j]-th trimmed token names no header (compared
    case-insensitively), the [j]-th result column is the first header and,
    in every result row, position [j] holds cell 0 of the table row it was
    projected from. *)
Theorem C5_unresolved_column_first_header lc el (q : string) (t : CSVData)
  (g tok : string) (j : nat) :
  includes (normalize q) "select" = true ->
  select_capture (normalize q) = Some g ->
  String.eqb (trim g) "*" = false ->
  nth_error (map trim (split ","%char g)) j = Some tok ->
  headerIndex (headers t) tok = None ->
  nth_error (columns (fst (executeCSVQuery lc el q t))) j = Some (nth 0 (headers t) "") /\
  exists surv,
    (forall s, In s surv -> In s (rows t)) /\
    Forall2 (fun r s => cell r j = cell s 0) (qr_rows (fst (executeCSVQuery lc el q t))) surv.
Proof.
  intros Hs Hg Hstar Htok Hidx.
  destruct (execute_rows lc el q t Hs) as [surv [Hin [_ E]]].
  rewrite E. simpl.
  unfold selectStage. rewrite Hg, Hstar. cbv zeta. simpl.
  set (idxs := map (fun col => match headerIndex (headers t) col with
                               | Some i => i | None => 0 end)
                   (map trim (split ","%char g))).
  assert (Hj : nth_error idxs j = Some 0).
  { unfold idxs. rewrite nth_error_map, Htok. simpl. rewrite Hidx. reflexivity. }
  split.
  - rewrite nth_error_map, Hj. reflexivity.
  - exists surv. split.
    + intros s Hsv. eapply whereStage_incl. apply Hin, Hsv.
    + clear E Hin. induction surv as [|s surv IH]; simpl; constructor; [|exact IH].
      unfold project, cell. apply nth_error_nth. rewrite nth_error_map, Hj. reflexivity.
Qed.

Lemma C5_witness :
  (includes (normalize Fixtures.q_unresolved) "select" = true /\
   select_capture (normalize Fixtures.q_unresolved) = Some "nonexistent_col" /\
   String.eqb (trim "nonexistent_col") "*" = false /\
   nth_error (map trim (split ","%char "nonexistent_col")) 0 = Some "nonexistent_col" /\
   headerIndex (headers Fixtures.survey) "nonexistent_col" = None) /\
  (nth_error (columns (fst (executeCSVQuery String.compare 0 Fixtures.q_unresolved
                                            Fixtures.survey))) 0 =
     Some (nth 0 (headers Fixtures.survey) "") /\
   exists surv,
     (forall s, In s surv -> In s (rows Fixtures.survey)) /\
     Forall2 (fun r s => cell r 0 = cell s 0)
       (qr_rows (fst (executeCSVQuery String.compare 0 Fixtures.q_unresolved
                                      Fixtures.survey))) surv).
Proof.
  assert (H1 : includes (normalize Fixtures.q_unresolved) "select" = true)
    by (vm_compute; reflexivity).
  assert (H2 : select_capture (normalize Fixtures.q_unresolved) = Some "nonexistent_col")
    by (vm_compute; reflexivity).
  assert (H3 : String.eqb (trim "nonexistent_col") "*" = false) by (vm_compute; reflexivity).
  assert (H4 : nth_error (map trim (split ","%char "nonexistent_col")) 0 = Some "nonexistent_col")
    by (vm_compute; reflexivity).
  assert (H5 : headerIndex (headers Fixtures.survey) "nonexistent_col" = None)
    by (vm_compute; reflexivity).
  split; [repeat split; assumption|].
  exact (C5_unresolved_column_first_header String.compare 0 _ _ _ _ 0 H1 H2 H3 H4 H5).
Defined.

(** C9: on a Table (every row as long as the header), [SELECT * FROM t]
    returns the headers as columns and the table's rows unchanged and in
    order, with [rowCount] their number; the table is left as it was. *)
Theorem C9_select_star_identity lc el (t : CSVData) :
  Forall (fun r => length r = length (headers t)) (rows t) ->
  executeCSVQuery lc el "SELECT * FROM t" t =
  (mkQueryResult (headers t) (rows t) (length (rows t)) el, t).
Proof.
  intros Hwf.
  assert (Hs : includes (normalize "SELECT * FROM t") "select" = true)
    by (vm_compute; reflexivity).
  assert (E1 : select_capture (normalize "SELECT * FROM t") = Some "*")
    by (vm_compute; reflexivity).
  assert (E2 : where_capture (normalize "SELECT * FROM t") = None)
    by (vm_compute; reflexivity).
  assert (E3 : order_capture (normalize "SELECT * FROM t") = None)
    by (vm_compute; reflexivity).
  assert (E4 : limit_capture (normalize "SELECT * FROM t") = None)
    by (vm_compute; reflexivity).
  rewrite (execute_pipeline lc el _ t Hs). cbv zeta.
  unfold selectStage, whereStage, orderStage.
  rewrite E1, E2, E3, E4. simpl.
  rewrite project_all by exact Hwf. reflexivity.
Qed.

Lemma C9_witness :
  Forall (fun r => length r = length (headers Fixtures.survey)) (rows Fixtures.survey) /\
  executeCSVQuery String.compare 3 "SELECT * FROM t" Fixtures.survey =
  (mkQueryResult (headers Fixtures.survey) (rows Fixtures.survey)
     (length (rows Fixtures.survey)) 3, Fixtures.survey).
Proof.
  assert (H : Forall (fun r => length r = length (headers Fixtures.survey))
                     (rows Fixtures.survey)) by (repeat constructor).
  split; [exact H | apply C9_select_star_identity, H].
Defined.

(** C10: when the normalized query contains [select] but
    [select\s+(.*?)\s+from] does not match it, the result columns are the
    headers in table order and every result row is a whole row of the
    Table. *)
Theorem C10_no_select_from_full_projection lc el (q : string) (t : CSVData) :
  Forall (fun r => length r = length (headers t)) (rows t) ->
  includes (normalize q) "select" = true ->
  select_capture (normalize q) = None ->
  columns (fst (executeCSVQuery lc el q t)) = headers t /\
  (forall r, In r (qr_rows (fst (executeCSVQuery lc el q t))) -> In r (rows t)).
Proof.
  intros Hwf Hs Hc.
  destruct (execute_rows lc el q t Hs) as [surv [Hin [_ E]]].
  assert (Hsub : forall r, In r surv -> In r (rows t))
    by (intros r Hr; eapply whereStage_incl; apply Hin, Hr).
  rewrite E. unfold selectStage. rewrite Hc. simpl.
  split; [reflexivity|].
  rewrite project_all; [exact Hsub|].
  apply Forall_forall. intros r Hr.
  exact (proj1 (Forall_forall _ _) Hwf r (Hsub r Hr)).
Qed.

Lemma C10_witness :
  (Forall (fun r => length r = length (headers Fixtures.survey)) (rows Fixtures.survey) /\
   includes (normalize Fixtures.q_no_from) "select" = true /\
   select_capture (normalize Fixtures.q_no_from) = None) /\
  (columns (fst (executeCSVQuery String.compare 0 Fixtures.q_no_from Fixtures.survey))
     = headers Fixtures.survey /\
   (forall r, In r (qr_rows (fst (executeCSVQuery String.compare 0 Fixtures.q_no_from
                                                  Fixtures.survey))) ->
              In r (rows Fixtures.survey))).
Proof.
  assert (H1 : Forall (fun r => length r = length (headers Fixtures.survey))
                      (rows Fixtures.survey)) by (repeat constructor).
  assert (H2 : includes (normalize Fixtures.q_no_from) "select" = true)
    by (vm_compute; reflexivity).
  assert (H3 : select_capture (normalize Fixtures.q_no_from) = None)
    by (vm_compute; reflexivity).
  split; [repeat split; assumption|].
  exact (C10_no_select_from_full_projection String.compare 0 _ _ H1 H2 H3).
Defined.


(** C2 fails: [parseCSV] has no failure path; on the empty text it returns
    a Table with no rows. *)
Lemma C2_counterexample : exists d : CSVData, parseCSV "" = d /\ rows d = [].
Proof. eexists. split; [reflexivity | vm_compute; reflexivity]. Qed.

(** C2, as the code has it: the server loader [parseCSV] has no failure
    path and returns a Table with no rows for the empty text; the client
    loader rejects with "No data found in CSV" when the CSV parser delivers
    no record. *)
Theorem C2_empty_input_outcomes :
  rows (parseCSV "") = [] /\
  loadCSVData_complete [] = Reject "No data found in CSV".
Proof. split; [vm_compute|]; reflexivity. Qed.

(** C1 (code): with an ORDER BY clause and no WHERE clause,
    [filteredRows] is the table's own [data.rows] array and [sort] reorders
    it in place: the Table given to the call comes back sorted.  (With a
    WHERE clause it is left as it was: [execute_frame_with_where].) *)
Theorem C1_order_by_without_where_reorders_table lc el :
  rows Fixtures.t_21 = [["2"]; ["1"]] /\
  snd (executeCSVQuery lc el Fixtures.q_order_a Fixtures.t_21) =
  mkCSVData ["a"] [["1"]; ["2"]].
Proof. split; [reflexivity | vm_compute; reflexivity]. Qed.

(** C3 (code): [whereClause.split('=')] cuts the clause at every [=] and
    only the first two pieces are kept, so the value token ends at a second
    [=].  On [a = 'x=y'] the code keeps the row whose cell is [x]; splitting
    at the first [=] only, as the claim says, gives the value [x=y], which
    that cell does not contain. *)
Theorem C3_value_cut_at_second_equals lc el :
  where_capture (normalize Fixtures.q_eq_twice) = Some "a = 'x=y'" /\
  qr_rows (fst (executeCSVQuery lc el Fixtures.q_eq_twice Fixtures.t_x)) = [["x"]] /\
  spec_eq_keep Fixtures.t_x "a = 'x=y'" ["x"] = false.
Proof. repeat split; vm_compute; reflexivity. Qed.

(** The LIKE branch of the client engine: for a WHERE clause that contains
    [like] and no [=], matched by [(\w+)\s+like\s+['"](.+)['"]] with a
    column that resolves, the result rows are projections of rows kept by
    the [%]-stripped, case-insensitive substring test; without LIMIT they are
    all of those rows. *)
Theorem client_like_filter lc el (q : string) (t : CSVData) (wc column pattern : string)
  (idx : nat) :
  includes (normalize q) "select" = true ->
  where_capture (normalize q) = Some wc ->
  includes wc "=" = false ->
  includes wc "like" = true ->
  like_capture wc = Some (column, pattern) ->
  headerIndex (headers t) column = Some idx ->
  exists surv,
    (forall r, In r surv -> In r (spec_like_rows (rows t) idx pattern)) /\
    (limit_capture (normalize q) = None ->
       Permutation surv (spec_like_rows (rows t) idx pattern)) /\
    qr_rows (fst (executeCSVQuery lc el q t)) =
    map (project (snd (selectStage (normalize q) t))) surv.
Proof.
  intros Hs Hw Heq Hlike Hcap Hidx.
  assert (Ew : whereStage (normalize q) t = Fresh (spec_like_rows (rows t) idx pattern)).
  { unfold whereStage. rewrite Hw. f_equal. unfold spec_like_rows.
    apply filter_ext. intros row. unfold whereKeep.
    rewrite Heq, Hlike, Hcap, Hidx. reflexivity. }
  destruct (execute_rows lc el q t Hs) as [surv [Hin [Hperm E]]].
  rewrite Ew in Hin, Hperm. simpl in Hin, Hperm.
  exists surv. split; [exact Hin|]. split; [exact Hperm|].
  rewrite E. reflexivity.
Qed.

Lemma client_like_filter_witness :
  (includes (normalize Fixtures.q_like) "select" = true /\
   where_capture (normalize Fixtures.q_like) = Some "industry_name_nzsioc like '%agri%'" /\
   includes "industry_name_nzsioc like '%agri%'" "=" = false /\
   includes "industry_name_nzsioc like '%agri%'" "like" = true /\
   like_capture "industry_name_nzsioc like '%agri%'" = Some ("industry_name_nzsioc", "%agri%") /\
   headerIndex (headers Fixtures.survey) "industry_name_nzsioc" = Some 1) /\
  exists surv,
    (forall r, In r surv -> In r (spec_like_rows (rows Fixtures.survey) 1 "%agri%")) /\
    (limit_capture (normalize Fixtures.q_like) = None ->
       Permutation surv (spec_like_rows (rows Fixtures.survey) 1 "%agri%")) /\
    qr_rows (fst (executeCSVQuery String.compare 0 Fixtures.q_like Fixtures.survey)) =
    map (project (snd (selectStage (normalize Fixtures.q_like) Fixtures.survey))) surv.
Proof.
  assert (H1 : includes (normalize Fixtures.q_like) "select" = true) by (vm_compute; reflexivity).
  assert (H2 : where_capture (normalize Fixtures.q_like) = Some "industry_name_nzsioc like '%agri%'")
    by (vm_compute; reflexivity).
  assert (H3 : includes "industry_name_nzsioc like '%agri%'" "=" = false) by (vm_compute; reflexivity).
  assert (H4 : includes "industry_name_nzsioc like '%agri%'" "like" = true) by (vm_compute; reflexivity).
  assert (H5 : like_capture "industry_name_nzsioc like '%agri%'" = Some ("industry_name_nzsioc", "%agri%"))
    by (vm_compute; reflexivity).
  assert (H6 : headerIndex (headers Fixtures.survey) "industry_name_nzsioc" = Some 1)
    by (vm_compute; reflexivity).
  split; [repeat split; assumption|].
  exact (client_like_filter String.compare 0 _ _ _ _ _ _ H1 H2 H3 H4 H5 H6).
Defined.

(** C8 (code): the server copy of [executeCSVQuery] has no LIKE branch;
    its filter keeps a row whenever the clause has no [=].  On the query
    [... WHERE Industry_name_NZSIOC LIKE '%agri%'] the client engine and the
    claim's reading keep only the Agriculture row, while the server engine
    returns both rows of the table. *)
Theorem C8_server_ignores_like lc el :
  where_capture (normalize Fixtures.q_like) = Some "industry_name_nzsioc like '%agri%'" /\
  like_capture "industry_name_nzsioc like '%agri%'" = Some ("industry_name_nzsioc", "%agri%") /\
  headerIndex (headers Fixtures.survey) "industry_name_nzsioc" = Some 1 /\
  spec_like_rows (rows Fixtures.survey) 1 "%agri%"
    = [["2024"; "Agriculture, Forestry and Fishing"; "10"]] /\
  qr_rows (fst (executeCSVQuery lc el Fixtures.q_like Fixtures.survey))
    = [["2024"; "Agriculture, Forestry and Fishing"; "10"]] /\
  qr_rows (ServerEngine.executeCSVQuery el Fixtures.q_like Fixtures.survey) = rows Fixtures.survey.
Proof. repeat split; vm_compute; reflexivity. Qed.

(** C6 fails: [parseFloat] reads a leading numeric prefix, so the cells
    [10x] and [9x], which are not numbers, are compared as 10 and 9 and [9x]
    comes first; the claim's comparison (numeric only for numbers,
    lexicographic otherwise) puts [10x] first. *)
Lemma C6_counterexample :
  qr_rows (fst (executeCSVQuery String.compare 0 Fixtures.q_order_a Fixtures.t_10x_9x))
    = [["9x"]; ["10x"]] /\
  spec_number "9x" = None /\ spec_number "10x" = None /\
  spec_order_compare false 0 ["9x"] ["10x"] = Gt.
Proof. repeat split; vm_compute; reflexivity. Qed.

(** C6, as the code has it: for [order by <column> [asc|desc]] with a column
    that resolves to index [idx], the rows left by the WHERE stage are
    sorted (before LIMIT and projection) by [orderCompare]: the values
    [parseFloat] reads from both cells when it reads one from each, otherwise
    [localeCompare] of the cells; reversed exactly when the direction word
    captured right after the column is [desc].  Consecutive rows are in
    order for this comparison. *)
Theorem C6_order_by_sorted lc el (q : string) (t : CSVData) (column : string)
  (direction : option string) (idx : nat) :
  (forall a b, lc b a = CompOpp (lc a b)) ->
  includes (normalize q) "select" = true ->
  order_capture (normalize q) = Some (column, direction) ->
  headerIndex (headers t) column = Some idx ->
  (forall a b,
     orderCompare lc (is_desc direction) idx a b =
     match parseFloat (cell a idx), parseFloat (cell b idx) with
     | Some x, Some y => if is_desc direction then jsnum_compare y x else jsnum_compare x y
     | _, _ => if is_desc direction then CompOpp (lc (cell a idx) (cell b idx))
               else lc (cell a idx) (cell b idx)
     end) /\
  exists sorted,
    Permutation sorted (deref (whereStage (normalize q) t) t) /\
    LocallySorted (fun a b => orderCompare lc (is_desc direction) idx a b <> Gt) sorted /\
    qr_rows (fst (executeCSVQuery lc el q t)) =
    map (project (snd (selectStage (normalize q) t)))
      (match limit_capture (normalize q) with
       | Some n => firstn (N.to_nat n) sorted
       | None => sorted
       end).
Proof.
  intros Hlc Hs Ho Hidx. split; [reflexivity|].
  set (cmp := orderCompare lc (is_desc direction) idx).
  assert (Hanti : forall a b, cmp b a = CompOpp (cmp a b))
    by (apply orderCompare_antisym, Hlc).
  rewrite (execute_pipeline lc el q t Hs). cbv zeta. simpl.
  unfold orderStage. rewrite Ho, Hidx. fold cmp.
  destruct (whereStage (normalize q) t) as [|l]; simpl.
  - exists (sort cmp (rows t)).
    split; [apply sort_perm|]. split; [apply sort_sorted, Hanti | reflexivity].
  - exists (sort cmp l).
    split; [apply sort_perm|]. split; [apply sort_sorted, Hanti | reflexivity].
Qed.

Lemma C6_witness :
  ((forall a b, String.compare b a = CompOpp (String.compare a b)) /\
   includes (normalize Fixtures.q_order) "select" = true /\
   order_capture (normalize Fixtures.q_order) = Some ("value", Some "desc") /\
   headerIndex (headers Fixtures.survey) "value" = Some 2) /\
  ((forall a b,
     orderCompare String.compare (is_desc (Some "desc")) 2 a b =
     match parseFloat (cell a 2), parseFloat (cell b 2) with
     | Some x, Some y => if is_desc (Some "desc") then jsnum_compare y x else jsnum_compare x y
     | _, _ => if is_desc (Some "desc") then CompOpp (String.compare (cell a 2) (cell b 2))
               else String.compare (cell a 2) (cell b 2)
     end) /\
   exists sorted,
     Permutation sorted (deref (whereStage (normalize Fixtures.q_order) Fixtures.survey)
                               Fixtures.survey) /\
     LocallySorted (fun a b => orderCompare String.compare (is_desc (Some "desc")) 2 a b <> Gt)
       sorted /\
     qr_rows (fst (executeCSVQuery String.compare 0 Fixtures.q_order Fixtures.survey)) =
     map (project (snd (selectStage (normalize Fixtures.q_order) Fixtures.survey)))
       (match limit_capture (normalize Fixtures.q_order) with
        | Some n => firstn (N.to_nat n) sorted
        | None => sorted
        end)).
Proof.
  assert (H1 : forall a b, String.compare b a = CompOpp (String.compare a b))
    by (intros a b; apply String.compare_antisym).
  assert (H2 : includes (normalize Fixtures.q_order) "select" = true) by (vm_compute; reflexivity).
  assert (H3 : order_capture (normalize Fixtures.q_order) = Some ("value", Some "desc"))
    by (vm_compute; reflexivity).
  assert (H4 : headerIndex (headers Fixtures.survey) "value" = Some 2) by (vm_compute; reflexivity).
  split; [repeat split; assumption|].
  exact (C6_order_by_sorted String.compare 0 _ _ _ _ _ H1 H2 H3 H4).
Defined.

End Claims.

(* ------------------------------------------------------------------ *)
(** ** Further properties of the engines, the loaders and the components *)

Module Extras.
Import JS Regex Num Sort Engine Loader Facts.
Local Open Scope list_scope.

(** *** Helper lemmas *)

Lemma selectStage_length (nq : string) (t : CSVData) :
  length (fst (selectStage nq t)) = length (snd (selectStage nq t)).
Proof.
  unfold selectStage.
  destruct (select_capture nq) as [g|]; [destruct (String.eqb (trim g) "*")|]; simpl;
    rewrite ?length_map, ?length_seq; reflexivity.
Qed.

Lemma execute_unsupported lc el (q : string) (t : CSVData) :
  includes (normalize q) "select" = false -> executeCSVQuery lc el q t = (unsupported el, t).
Proof. intros Hs. unfold executeCSVQuery. cbv zeta. rewrite Hs. reflexivity. Qed.

Lemma whereStage_length (nq : string) (t : CSVData) :
  length (deref (whereStage nq t) t) <= length (rows t).
Proof.
  unfold whereStage. destruct (where_capture nq); simpl; [apply filter_length_le | lia].
Qed.

Lemma filter_all_true {A} (f : A -> bool) (l : list A) :
  (forall x, f x = true) -> filter f l = l.
Proof. intros H. induction l as [|x l IH]; simpl; [reflexivity|]. rewrite H, IH. reflexivity. Qed.

Lemma findIndex_lt {A} (f : A -> bool) (l : list A) (i : nat) :
  findIndex f l = Some i -> i < length l.
Proof.
  revert i. induction l as [|x l IH]; intros i; simpl; [discriminate|].
  destruct (f x); [intros [= <-]; lia|].
  destruct (findIndex f l) as [j|]; simpl; [intros [= <-]; specialize (IH j eq_refl); lia | discriminate].
Qed.

Lemma lower_char_idem (c : ascii) : lower_char (lower_char c) = lower_char c.
Proof. destruct c as [[] [] [] [] [] [] [] []]; reflexivity. Qed.

Lemma toLowerCase_idem (s : string) : toLowerCase (toLowerCase s) = toLowerCase s.
Proof.
  unfold toLowerCase. rewrite chars_of_chars, map_map.
  f_equal. apply map_ext, lower_char_idem.
Qed.

Lemma normalize_toLowerCase (q : string) : normalize (toLowerCase q) = normalize q.
Proof. unfold normalize. rewrite toLowerCase_idem. reflexivity. Qed.

Lemma server_unsupported el (q : string) (t : CSVData) :
  includes (normalize q) "select" = false -> ServerEngine.executeCSVQuery el q t = unsupported el.
Proof. intros Hs. unfold ServerEngine.executeCSVQuery. cbv zeta. rewrite Hs. reflexivity. Qed.

(** The result of the server engine for a SELECT query. *)
Lemma server_pipeline el (q : string) (t : CSVData) :
  includes (normalize q) "select" = true ->
  let nq := normalize q in
  let filtered := match where_capture nq with
                  | Some wc => filter (ServerEngine.whereKeep t wc) (rows t)
                  | None => rows t
                  end in
  let limited := match limit_capture nq with
                 | Some n => firstn (N.to_nat n) filtered
                 | None => filtered
                 end in
  ServerEngine.executeCSVQuery el q t =
  mkQueryResult (fst (selectStage nq t)) (map (project (snd (selectStage nq t))) limited)
    (length limited) el.
Proof.
  intros Hs nq filtered limited. unfold ServerEngine.executeCSVQuery. fold nq. fold nq in Hs.
  rewrite Hs. destruct (selectStage nq t) as [sc ci]. simpl.
  rewrite length_map. reflexivity.
Qed.

(** *** The client engine *)

(** X1: the reported [rowCount] is the number of result rows, and every
    result row has one cell per reported column. *)
Theorem execute_result_shape lc el (q : string) (t : CSVData) :
  rowCount (fst (executeCSVQuery lc el q t)) = length (qr_rows (fst (executeCSVQuery lc el q t))) /\
  Forall (fun row => length row = length (columns (fst (executeCSVQuery lc el q t))))
    (qr_rows (fst (executeCSVQuery lc el q t))).
Proof.
  destruct (includes (normalize q) "select") eqn:Hs.
  - rewrite (execute_pipeline lc el q t Hs). simpl. split; [rewrite length_map; reflexivity|].
    apply Forall_forall. intros row Hrow. apply in_map_iff in Hrow as [r0 [<- _]].
    unfold project. rewrite length_map. symmetry. apply selectStage_length.
  - rewrite (execute_unsupported lc el q t Hs). simpl. split; [reflexivity|].
    repeat constructor.
Qed.

(** X2: a SELECT query returns at most as many rows as the table has, and at
    most [n] rows when it has [LIMIT n]. *)
Theorem execute_row_bounds lc el (q : string) (t : CSVData) :
  includes (normalize q) "select" = true ->
  rowCount (fst (executeCSVQuery lc el q t)) <= length (rows t) /\
  (forall n, limit_capture (normalize q) = Some n ->
             rowCount (fst (executeCSVQuery lc el q t)) <= N.to_nat n).
Proof.
  intros Hs. rewrite (execute_pipeline lc el q t Hs). simpl.
  set (nq := normalize q).
  pose proof (Permutation_length (orderStage_perm lc nq t (whereStage nq t))) as P.
  pose proof (whereStage_length nq t) as W.
  split.
  - destruct (limit_capture nq); [rewrite length_firstn|]; lia.
  - intros n E. rewrite E. apply firstn_le_length.
Qed.

Lemma execute_row_bounds_witness :
  includes (normalize "select * from t limit 1") "select" = true /\
  rowCount (fst (executeCSVQuery String.compare 0 "select * from t limit 1" Fixtures.t1))
    <= length (rows Fixtures.t1) /\
  (forall n, limit_capture (normalize "select * from t limit 1") = Some n ->
     rowCount (fst (executeCSVQuery String.compare 0 "select * from t limit 1" Fixtures.t1))
       <= N.to_nat n).
Proof.
  split; [vm_compute; reflexivity|].
  apply (execute_row_bounds String.compare 0 "select * from t limit 1" Fixtures.t1).
  vm_compute. reflexivity.
Defined.

(** X3: after any query the table keeps its headers and holds the same rows,
    possibly reordered. *)
Theorem execute_table_permutation lc el (q : string) (t : CSVData) :
  headers (snd (executeCSVQuery lc el q t)) = headers t /\
  Permutation (rows (snd (executeCSVQuery lc el q t))) (rows t).
Proof.
  destruct (includes (normalize q) "select") eqn:Hs.
  - rewrite (execute_pipeline lc el q t Hs). simpl.
    unfold orderStage.
    destruct (order_capture (normalize q)) as [[column direction]|]; [|split; reflexivity].
    destruct (headerIndex (headers t) column); [|split; reflexivity].
    destruct (whereStage (normalize q) t); simpl; [split; [reflexivity | apply sort_perm]|].
    split; reflexivity.
  - rewrite (execute_unsupported lc el q t Hs). split; reflexivity.
Qed.

(** X4: the table is left as it was when the query has no ORDER BY clause,
    or one whose column resolves to no header. *)
Theorem execute_table_unchanged_without_order lc el (q : string) (t : CSVData) :
  (order_capture (normalize q) = None \/
   exists column direction, order_capture (normalize q) = Some (column, direction) /\
                            headerIndex (headers t) column = None) ->
  snd (executeCSVQuery lc el q t) = t.
Proof.
  intros H. destruct (includes (normalize q) "select") eqn:Hs.
  - rewrite (execute_pipeline lc el q t Hs). simpl. unfold orderStage.
    destruct H as [-> | [column [direction [-> Hc]]]]; [reflexivity|]. rewrite Hc. reflexivity.
  - rewrite (execute_unsupported lc el q t Hs). reflexivity.
Qed.

Lemma execute_table_unchanged_without_order_witness :
  snd (executeCSVQuery String.compare 0 "select * from t order by nothere" Fixtures.t1)
  = Fixtures.t1.
Proof.
  apply (execute_table_unchanged_without_order String.compare 0
           "select * from t order by nothere" Fixtures.t1).
  right. exists "nothere", None. split; vm_compute; reflexivity.
Defined.

(** X5: the WHERE stage keeps every row when the clause has an [=] whose
    column resolves to no header, has neither [=] nor [like], or has [like]
    without a usable [column LIKE 'pattern'] match on a known column. *)
Theorem where_keeps_all_rows (nq : string) (t : CSVData) (wc : string) :
  where_capture nq = Some wc ->
  (includes wc "=" = true /\
     headerIndex (headers t) (nth 0 (map trim (split "=" wc)) "") = None) \/
  (includes wc "=" = false /\ includes wc "like" = false) \/
  (includes wc "=" = false /\
     (like_capture wc = None \/
      exists column pattern, like_capture wc = Some (column, pattern) /\
                             headerIndex (headers t) column = None)) ->
  deref (whereStage nq t) t = rows t.
Proof.
  intros Hw H. unfold whereStage. rewrite Hw. simpl.
  apply filter_all_true. intros row. unfold whereKeep.
  destruct H as [[He Hi] | [[He Hl] | [He Hl]]]; rewrite He.
  - cbv zeta. rewrite Hi. reflexivity.
  - rewrite Hl. reflexivity.
  - destruct (includes wc "like"); [|reflexivity].
    destruct Hl as [-> | [column [pattern [-> Hi]]]]; [reflexivity|]. rewrite Hi. reflexivity.
Qed.

Lemma where_keeps_all_rows_witness :
  deref (whereStage "select * from t where nothere = 'x'" Fixtures.t1) Fixtures.t1
  = rows Fixtures.t1.
Proof.
  apply (where_keeps_all_rows "select * from t where nothere = 'x'" Fixtures.t1
           "nothere = 'x'"); [vm_compute; reflexivity|].
  left. split; vm_compute; reflexivity.
Defined.

(** X6: both engines read the query only through its lower-cased form: a
    query and its lower-cased copy give the same result. *)
Theorem engines_ignore_query_case lc el (q : string) (t : CSVData) :
  executeCSVQuery lc el (toLowerCase q) t = executeCSVQuery lc el q t /\
  ServerEngine.executeCSVQuery el (toLowerCase q) t = ServerEngine.executeCSVQuery el q t.
Proof.
  unfold executeCSVQuery, ServerEngine.executeCSVQuery.
  rewrite normalize_toLowerCase. split; reflexivity.
Qed.

(** *** The server engine *)

(** X7: on a table whose rows all have the header width, the server engine
    gives the client's result for a query without ORDER BY whose WHERE
    clause, if any, has [=] or no [like]. *)
Theorem server_agrees_with_client lc el (q : string) (t : CSVData) :
  Forall (fun row => length row = length (headers t)) (rows t) ->
  order_capture (normalize q) = None ->
  (forall wc, where_capture (normalize q) = Some wc ->
              includes wc "=" = true \/ includes wc "like" = false) ->
  ServerEngine.executeCSVQuery el q t = fst (executeCSVQuery lc el q t).
Proof.
  intros Hwidth Ho Hwc.
  destruct (includes (normalize q) "select") eqn:Hs.
  - rewrite (server_pipeline el q t Hs), (execute_pipeline lc el q t Hs). simpl.
    set (nq := normalize q) in *.
    unfold orderStage. rewrite Ho. simpl.
    assert (F : match where_capture nq with
                | Some wc => filter (ServerEngine.whereKeep t wc) (rows t)
                | None => rows t
                end = deref (whereStage nq t) t).
    { unfold whereStage. destruct (where_capture nq) as [wc|] eqn:Ew; [|reflexivity].
      simpl. apply filter_ext_in. intros row Hrow.
      rewrite Forall_forall in Hwidth. specialize (Hwidth row Hrow).
      unfold ServerEngine.whereKeep, whereKeep.
      destruct (includes wc "=") eqn:He.
      - cbv zeta.
        destruct (headerIndex (headers t) _) as [idx|] eqn:Ei; [|reflexivity].
        apply findIndex_lt in Ei.
        rewrite (nth_error_nth' row "") by lia. reflexivity.
      - destruct (Hwc wc eq_refl) as [E | E]; [congruence|]. rewrite E. reflexivity. }
    rewrite F. reflexivity.
  - rewrite (server_unsupported el q t Hs), (execute_unsupported lc el q t Hs). reflexivity.
Qed.

Lemma server_agrees_with_client_witness :
  ServerEngine.executeCSVQuery 0 "select value from t where name = 'b' limit 5" Fixtures.t1
  = fst (executeCSVQuery String.compare 0 "select value from t where name = 'b' limit 5"
           Fixtures.t1).
Proof.
  apply (server_agrees_with_client String.compare 0
           "select value from t where name = 'b' limit 5" Fixtures.t1).
  - vm_compute. repeat constructor.
  - vm_compute. reflexivity.
  - intros wc Hwc. left. vm_compute in Hwc. injection Hwc as <-. vm_compute. reflexivity.
Defined.

(** X8: the server engine ignores a WHERE clause without [=] (such as a
    LIKE condition): its filter keeps every row, and the result rows are the
    projections of the table's own rows, in order, cut by LIMIT if any; with
    no LIMIT, [rowCount] is the number of table rows. *)
Theorem server_ignores_where_without_equals el (q : string) (t : CSVData) (wc : string) :
  includes (normalize q) "select" = true ->
  where_capture (normalize q) = Some wc ->
  includes wc "=" = false ->
  filter (ServerEngine.whereKeep t wc) (rows t) = rows t /\
  qr_rows (ServerEngine.executeCSVQuery el q t) =
    map (project (snd (selectStage (normalize q) t)))
      (match limit_capture (normalize q) with
       | Some n => firstn (N.to_nat n) (rows t)
       | None => rows t
       end) /\
  (limit_capture (normalize q) = None ->
     rowCount (ServerEngine.executeCSVQuery el q t) = length (rows t)).
Proof.
  intros Hs Hw He.
  assert (Hf : filter (ServerEngine.whereKeep t wc) (rows t) = rows t).
  { apply filter_all_true. intros row. unfold ServerEngine.whereKeep. rewrite He. reflexivity. }
  rewrite (server_pipeline el q t Hs). simpl. rewrite Hw, Hf.
  split; [reflexivity|]. split; [reflexivity|].
  intros Hl. rewrite Hl. reflexivity.
Qed.

Lemma server_ignores_where_without_equals_witness :
  filter (ServerEngine.whereKeep Fixtures.survey "industry_name_nzsioc like '%agri%'")
    (rows Fixtures.survey) = rows Fixtures.survey /\
  qr_rows (ServerEngine.executeCSVQuery 0 Fixtures.q_like Fixtures.survey) =
    map (project (snd (selectStage (normalize Fixtures.q_like) Fixtures.survey)))
      (match limit_capture (normalize Fixtures.q_like) with
       | Some n => firstn (N.to_nat n) (rows Fixtures.survey)
       | None => rows Fixtures.survey
       end) /\
  (limit_capture (normalize Fixtures.q_like) = None ->
     rowCount (ServerEngine.executeCSVQuery 0 Fixtures.q_like Fixtures.survey)
     = length (rows Fixtures.survey)).
Proof.
  apply (server_ignores_where_without_equals 0 Fixtures.q_like Fixtures.survey
           "industry_name_nzsioc like '%agri%'"); vm_compute; reflexivity.
Defined.

(** *** The loaders *)

Lemma chars_app (s1 s2 : string) : chars (s1 ++ s2) = chars s1 ++ chars s2.
Proof. induction s1 as [|a s1 IH]; simpl; [reflexivity|]. unfold chars in *. simpl. rewrite IH. reflexivity. Qed.

Lemma of_chars_chars (s : string) : of_chars (chars s) = s.
Proof. apply string_of_list_ascii_of_string. Qed.

Lemma split_chars_nonempty (sep : ascii) (l : list ascii) : split_chars sep l <> [].
Proof.
  destruct l as [|c r]; simpl; [discriminate|].
  destruct (Ascii.eqb c sep); [discriminate|]. destruct (split_chars sep r); discriminate.
Qed.

Lemma split_chars_incl (sep : ascii) (l p : list ascii) (c : ascii) :
  In p (split_chars sep l) -> In c p -> In c l.
Proof.
  revert p. induction l as [|d r IH]; intros p Hp Hc; simpl in *.
  - destruct Hp as [<- | []]. destruct Hc.
  - destruct (Ascii.eqb d sep).
    + destruct Hp as [<- | Hp]; [destruct Hc | right; exact (IH p Hp Hc)].
    + destruct (split_chars sep r) as [|w ws] eqn:E.
      * destruct Hp as [<- | []]. destruct Hc as [-> | []]. left. reflexivity.
      * destruct Hp as [<- | Hp].
        -- destruct Hc as [-> | Hc]; [left; reflexivity|].
           right. apply (IH w); [left; reflexivity | exact Hc].
        -- right. apply (IH p); [right; exact Hp | exact Hc].
Qed.

Lemma countQuotes_zero (s : string) :
  countQuotes s = 0 <-> forall c, In c (chars s) -> c <> quote.
Proof.
  unfold countQuotes. rewrite length_zero_iff_nil. split.
  - intros E c Hc ->.
    assert (In quote (filter (fun c => Ascii.eqb c quote) (chars s))) as H.
    { apply filter_In. split; [exact Hc | apply Ascii.eqb_refl]. }
    rewrite E in H. destruct H.
  - intros H. destruct (filter (fun c => Ascii.eqb c quote) (chars s)) as [|a l] eqn:E;
      [reflexivity|].
    assert (In a (filter (fun c => Ascii.eqb c quote) (chars s))) as Ha by (rewrite E; left; reflexivity).
    apply filter_In in Ha as [Ha Hq]. apply Ascii.eqb_eq in Hq. exfalso. exact (H a Ha Hq).
Qed.

(** The loop of [parseCSVLine] outside quotes, on a text without quotes. *)
Lemma go_unquoted (l cur : list ascii) (acc : list string) :
  (forall c, In c l -> c <> quote) ->
  parseCSVLine_go l cur false acc =
  rev acc ++ match split_chars ","%char l with
             | p :: ps => trim (of_chars (cur ++ p)) :: map (fun x => trim (of_chars x)) ps
             | [] => []
             end.
Proof.
  revert cur acc. induction l as [|c r IH]; intros cur acc Hq; simpl.
  - rewrite app_nil_r. reflexivity.
  - assert (Hc : Ascii.eqb c quote = false)
      by (apply Ascii.eqb_neq, Hq; left; reflexivity).
    assert (Hr : forall c, In c r -> c <> quote) by (intros d Hd; apply Hq; right; exact Hd).
    rewrite Hc. destruct (Ascii.eqb c ","%char) eqn:Ecomma; simpl.
    + rewrite (IH [] _ Hr).
      destruct (split_chars ","%char r) as [|p ps] eqn:Es; [exfalso; exact (split_chars_nonempty _ _ Es)|].
      simpl. rewrite app_nil_r, <- app_assoc. reflexivity.
    + rewrite (IH _ _ Hr).
      destruct (split_chars ","%char r) as [|p ps] eqn:Es; [exfalso; exact (split_chars_nonempty _ _ Es)|].
      rewrite <- app_assoc. reflexivity.
Qed.

Lemma parseCSVLine_unquoted_eq (line : string) :
  (forall c, In c (chars line) -> c <> quote) ->
  parseCSVLine line = map trim (split "," line).
Proof.
  intros H. unfold parseCSVLine, split. rewrite (go_unquoted _ [] [] H). simpl.
  destruct (split_chars ","%char (chars line)) as [|p ps]; [reflexivity|].
  simpl. rewrite map_map. reflexivity.
Qed.

(** X9: a line without double quotes is read as its comma-separated
    pieces, each trimmed. *)
Theorem parseCSVLine_unquoted (line : string) :
  countQuotes line = 0 -> parseCSVLine line = map trim (split "," line).
Proof. intros H. apply parseCSVLine_unquoted_eq, (proj1 (countQuotes_zero line)), H. Qed.

Lemma parseCSVLine_unquoted_witness :
  parseCSVLine "a, b ,c" = map trim (split "," "a, b ,c").
Proof. apply (parseCSVLine_unquoted "a, b ,c"). vm_compute. reflexivity. Defined.

(** Reading the inside of a quoted field up to its closing quote. *)
Lemma go_quoted (x rest cur : list ascii) (acc : list string) :
  match rest with d :: _ => d <> quote | [] => True end ->
  parseCSVLine_go (CSVWriter.escape x ++ quote :: rest) cur true acc =
  parseCSVLine_go rest (cur ++ x) false acc.
Proof.
  revert cur. induction x as [|c x IH]; intros cur Hr; cbn [CSVWriter.escape app parseCSVLine_go].
  - rewrite Ascii.eqb_refl, app_nil_r. destruct rest as [|d rest]; [reflexivity|].
    rewrite (proj2 (Ascii.eqb_neq d quote) Hr). reflexivity.
  - destruct (Ascii.eqb c quote) eqn:Ec.
    + apply Ascii.eqb_eq in Ec. subst c. cbn [app parseCSVLine_go]. rewrite Ascii.eqb_refl.
      rewrite IH by exact Hr. rewrite <- app_assoc. reflexivity.
    + cbn [app parseCSVLine_go]. rewrite Ec. destruct (Ascii.eqb c ","%char); cbn [andb negb];
        rewrite IH by exact Hr; rewrite <- app_assoc; reflexivity.
Qed.

Lemma comma_not_quote : ","%char <> quote.
Proof. unfold quote. vm_compute. intros H. discriminate H. Qed.

Lemma go_quoteLine (fs : list string) (acc : list string) :
  fs <> [] ->
  parseCSVLine_go (chars (CSVWriter.quoteLine fs)) [] false acc = rev acc ++ map trim fs.
Proof.
  revert acc. induction fs as [|f fs IH]; intros acc Hne; [congruence|].
  destruct fs as [|g fs].
  - unfold CSVWriter.quoteLine. cbn [map String.concat]. unfold CSVWriter.quoteField.
    rewrite chars_of_chars. cbn [app parseCSVLine_go]. rewrite Ascii.eqb_refl. cbn [negb].
    rewrite (go_quoted (chars f) [] [] acc I). cbn [app parseCSVLine_go rev].
    rewrite of_chars_chars. reflexivity.
  - change (CSVWriter.quoteLine (f :: g :: fs))
      with (String.append (CSVWriter.quoteField f) (String.append "," (CSVWriter.quoteLine (g :: fs)))).
    rewrite !chars_app. unfold CSVWriter.quoteField at 1. rewrite chars_of_chars.
    cbn [app parseCSVLine_go]. rewrite Ascii.eqb_refl. cbn [negb]. rewrite <- app_assoc.
    cbn [app chars list_ascii_of_string].
    rewrite (go_quoted (chars f) (","%char :: chars (CSVWriter.quoteLine (g :: fs))) [] acc
               comma_not_quote). cbn [app parseCSVLine_go].
    rewrite (proj2 (Ascii.eqb_neq _ _) comma_not_quote). rewrite Ascii.eqb_refl. cbn [andb negb].
    rewrite IH by discriminate. rewrite of_chars_chars. cbn [rev]. rewrite <- app_assoc. reflexivity.
Qed.

(** X10: a record written in standard CSV quoting (each field in double
    quotes, inner quotes doubled, fields joined with commas) is read back by
    [parseCSVLine] as its fields, trimmed. *)
Theorem parseCSVLine_quoted_round_trip (fields : list string) :
  fields <> [] -> parseCSVLine (CSVWriter.quoteLine fields) = map trim fields.
Proof. intros H. unfold parseCSVLine. rewrite (go_quoteLine fields [] H). reflexivity. Qed.

Lemma parseCSVLine_quoted_round_trip_witness :
  parseCSVLine (CSVWriter.quoteLine ["a, b"; (Schema.dq ++ "q" ++ Schema.dq)%string; " c "])
  = map trim ["a, b"; (Schema.dq ++ "q" ++ Schema.dq)%string; " c "].
Proof. apply parseCSVLine_quoted_round_trip. discriminate. Defined.

Lemma drop_space_head (l r : list ascii) (a : ascii) :
  drop_space l = a :: r -> is_space a = false.
Proof.
  induction l as [|c l IH]; simpl; [discriminate|].
  destruct (is_space c) eqn:E; [exact IH|]. intros [= <- _]. exact E.
Qed.

Lemma drop_space_idem (l : list ascii) : drop_space (drop_space l) = drop_space l.
Proof.
  induction l as [|c l IH]; simpl; [reflexivity|].
  destruct (is_space c) eqn:E; [exact IH|]. simpl. rewrite E. reflexivity.
Qed.

Lemma trim_chars_idem (l : list ascii) : trim_chars (trim_chars l) = trim_chars l.
Proof.
  unfold trim_chars at 2 3.
  set (k := drop_space (rev (drop_space l))).
  assert (Hk : drop_space (rev k) = rev k).
  { destruct (rev k) as [|a r] eqn:Ek; [reflexivity|].
    destruct (drop_space_suffix (rev (drop_space l))) as [p Hp]. fold k in Hp.
    assert (Hm : drop_space l = rev k ++ rev p)
      by (rewrite <- rev_app_distr, <- Hp, rev_involutive; reflexivity).
    rewrite Ek in Hm. simpl in Hm. apply drop_space_head in Hm. simpl. rewrite Hm. reflexivity. }
  unfold trim_chars. rewrite Hk, rev_involutive. unfold k. rewrite drop_space_idem. reflexivity.
Qed.

Lemma trim_of_chars_trim (l : list ascii) : trim (of_chars (trim_chars l)) = of_chars (trim_chars l).
Proof. unfold trim. rewrite chars_of_chars, trim_chars_idem. reflexivity. Qed.

Lemma trim_idem (s : string) : trim (trim s) = trim s.
Proof. apply trim_of_chars_trim. Qed.

Lemma go_trimmed (n : nat) : forall s cur b acc, length s <= n ->
  Forall (fun x => trim x = x) acc ->
  Forall (fun x => trim x = x) (parseCSVLine_go s cur b acc).
Proof.
  induction n as [|n IH]; intros s cur b acc Hn Hacc; destruct s as [|c r];
    cbn [parseCSVLine_go length] in *.
  - apply Forall_rev. constructor; [apply trim_idem | exact Hacc].
  - lia.
  - apply Forall_rev. constructor; [apply trim_idem | exact Hacc].
  - destruct (Ascii.eqb c quote).
    + destruct b; [destruct r as [|d r']; [|destruct (Ascii.eqb d quote)]|];
        apply IH; simpl in *; auto; lia.
    + destruct (Ascii.eqb c ","%char && negb b); apply IH; auto; try lia.
      constructor; [apply trim_idem | exact Hacc].
Qed.

Lemma parseCSVLine_trimmed (line : string) :
  Forall (fun x => trim x = x) (parseCSVLine line).
Proof. apply (go_trimmed (length (chars line))); auto. Qed.

Lemma in_firstn_in {A} (n : nat) (l : list A) (x : A) : In x (firstn n l) -> In x l.
Proof. intros H. rewrite <- (firstn_skipn n l). apply in_or_app. left. exact H. Qed.

Lemma pushRow_trimmed (W : nat) (row : list string) :
  Forall (fun x => trim x = x) row ->
  Forall (Forall (fun x => trim x = x)) (pushRow W row).
Proof.
  intros H. unfold pushRow. destruct (Nat.ltb 0 (length row)); [|constructor].
  constructor; [|constructor]. apply Forall_forall. intros x Hx.
  apply in_firstn_in, in_app_or in Hx as [Hx | Hx].
  - rewrite Forall_forall in H. apply H, Hx.
  - apply repeat_spec in Hx. subst x. reflexivity.
Qed.

Lemma parseRows_trimmed (W : nat) (st : rowState) (lines : list string) :
  Forall (Forall (fun x => trim x = x)) (parseRows W st lines).
Proof.
  revert st. induction lines as [|line rest IH]; intros st; destruct st; simpl.
  - constructor.
  - apply pushRow_trimmed, parseCSVLine_trimmed.
  - destruct (String.eqb (trim line) ""); [apply IH|].
    destruct (Nat.even (countQuotes line));
      [apply Forall_app; split; [apply pushRow_trimmed, parseCSVLine_trimmed | apply IH] | apply IH].
  - destruct (Nat.even _);
      [apply Forall_app; split; [apply pushRow_trimmed, parseCSVLine_trimmed | apply IH] | apply IH].
Qed.

(** X11: both loaders deliver a table whose headers and cells carry no
    leading or trailing white space. *)
Theorem loaders_trim_every_cell :
  (forall csvText : string,
     Forall (fun h => trim h = h) (headers (parseCSV csvText)) /\
     Forall (Forall (fun c => trim c = c)) (rows (parseCSV csvText))) /\
  (forall data : list (list string),
     match loadCSVData_complete data with
     | Resolve t => Forall (fun h => trim h = h) (headers t) /\
                    Forall (Forall (fun c => trim c = c)) (rows t)
     | Reject _ => True
     end).
Proof.
  split.
  - intros csvText. unfold parseCSV.
    destruct (split (ascii_of_nat 10) csvText) as [|line0 rest]; simpl;
      [split; constructor|].
    split; [apply parseCSVLine_trimmed | apply parseRows_trimmed].
  - intros [|d0 rest]; simpl; [exact I|]. split.
    + apply Forall_forall. intros h Hh. apply in_map_iff in Hh as [h0 [<- _]]. apply trim_idem.
    + apply Forall_forall. intros row Hrow. apply in_map_iff in Hrow as [r0 [<- _]].
      apply Forall_forall. intros c Hc. apply in_map_iff in Hc as [c0 [<- _]].
      destruct (String.eqb c0 ""); [reflexivity | apply trim_idem].
Qed.

Lemma parseCSVLine_nonempty_unquoted (line : string) :
  countQuotes line = 0 -> parseCSVLine line <> [].
Proof.
  intros H. rewrite (parseCSVLine_unquoted_eq line (proj1 (countQuotes_zero line) H)). unfold split.
  destruct (split_chars ","%char (chars line)) eqn:E; [exfalso; exact (split_chars_nonempty _ _ E)|].
  discriminate.
Qed.

Lemma parseRows_unquoted (W : nat) (lines : list string) :
  Forall (fun line => countQuotes line = 0) lines ->
  length (parseRows W Idle lines) =
  length (filter (fun line => negb (String.eqb (trim line) "")) lines).
Proof.
  induction 1 as [|line rest Hl _ IH]; simpl; [reflexivity|].
  destruct (String.eqb (trim line) ""); simpl; [exact IH|].
  rewrite Hl. simpl. rewrite length_app, IH. unfold pushRow.
  destruct (parseCSVLine line) eqn:E; [exfalso; exact (parseCSVLine_nonempty_unquoted line Hl E)|].
  reflexivity.
Qed.

(** X12: a text without double quotes gives exactly one row for every
    non-blank line after the header line. *)
Theorem parseCSV_unquoted_row_count (csvText : string) :
  countQuotes csvText = 0 ->
  length (rows (parseCSV csvText)) =
  length (filter (fun line => negb (String.eqb (trim line) ""))
                 (tl (split (ascii_of_nat 10) csvText))).
Proof.
  intros H0. pose proof (proj1 (countQuotes_zero csvText) H0) as H.
  assert (Hlines : Forall (fun line => countQuotes line = 0) (split (ascii_of_nat 10) csvText)).
  { apply Forall_forall. intros line Hline. apply (proj2 (countQuotes_zero line)). intros c Hc.
    unfold split in Hline. apply in_map_iff in Hline as [p [<- Hp]].
    rewrite chars_of_chars in Hc. apply H. exact (split_chars_incl _ _ _ _ Hp Hc). }
  unfold parseCSV. destruct (split (ascii_of_nat 10) csvText) as [|line0 rest]; simpl; [reflexivity|].
  inversion Hlines; subst. apply parseRows_unquoted. assumption.
Qed.

Lemma parseCSV_unquoted_row_count_witness :
  length (rows (parseCSV ("a,b" ++ Schema.nl ++ "1,2" ++ Schema.nl ++ "  "
                           ++ Schema.nl ++ "3")%string)) =
  length (filter (fun line => negb (String.eqb (trim line) ""))
                 (tl (split (ascii_of_nat 10) ("a,b" ++ Schema.nl ++ "1,2" ++ Schema.nl
                                                ++ "  " ++ Schema.nl ++ "3")%string))).
Proof. apply parseCSV_unquoted_row_count. vm_compute. reflexivity. Defined.

(** *** [SQLQueryGenerator] *)

Lemma limit_bounds lc el (q : string) (t : CSVData) (n : N) :
  includes (normalize q) "select" = true -> limit_capture (normalize q) = Some n ->
  rowCount (fst (executeCSVQuery lc el q t)) <= N.to_nat n /\
  rowCount (ServerEngine.executeCSVQuery el q t) <= N.to_nat n.
Proof.
  intros Hs Hl. rewrite (execute_pipeline lc el q t Hs), (server_pipeline el q t Hs). simpl.
  rewrite Hl. split; apply firstn_le_length.
Qed.

(** X13: whatever the question, the SQL of [generateSimpleSQL] is a SELECT
    query for both engines, and each returns at most 100 rows for it. *)
Theorem generated_sql_bounded lc el (question : string) (t : CSVData) :
  includes (normalize (Generator.generateSimpleSQL question)) "select" = true /\
  rowCount (fst (executeCSVQuery lc el (Generator.generateSimpleSQL question) t)) <= 100 /\
  rowCount (ServerEngine.executeCSVQuery el (Generator.generateSimpleSQL question) t) <= 100.
Proof.
  unfold Generator.generateSimpleSQL. cbv zeta.
  repeat match goal with |- context [if ?b then _ else _] => destruct b end;
  match goal with
  | |- includes (normalize ?q) _ = true /\ _ =>
      let n := eval vm_compute in (limit_capture (normalize q)) in
      match n with
      | Some ?m =>
          assert (Hs : includes (normalize q) "select" = true) by (vm_compute; reflexivity);
          destruct (limit_bounds lc el q t m Hs ltac:(vm_compute; reflexivity)) as [B1 B2];
          split; [exact Hs | lia]
      end
  end.
Qed.

(** X14: the generated "top industries" query is not ordered by value: its
    ORDER BY column reads as [cast], so on a table without such a column the
    table is untouched and the result is the first 10 matching rows in table
    order. *)
Theorem top_industries_in_table_order lc el (t : CSVData) :
  headerIndex (headers t) "cast" = None ->
  snd (executeCSVQuery lc el Generator.top_industries_sql t) = t /\
  qr_rows (fst (executeCSVQuery lc el Generator.top_industries_sql t)) =
  map (project (snd (selectStage (normalize Generator.top_industries_sql) t)))
      (firstn 10 (filter (whereKeep t "variable_name = 'total income'") (rows t))).
Proof.
  intros Hc.
  assert (Hs : includes (normalize Generator.top_industries_sql) "select" = true)
    by (vm_compute; reflexivity).
  assert (Ho : order_capture (normalize Generator.top_industries_sql) = Some ("cast", None))
    by (vm_compute; reflexivity).
  assert (Hw : where_capture (normalize Generator.top_industries_sql)
               = Some "variable_name = 'total income'") by (vm_compute; reflexivity).
  assert (Hl : limit_capture (normalize Generator.top_industries_sql) = Some 10%N)
    by (vm_compute; reflexivity).
  rewrite (execute_pipeline lc el _ t Hs).
  unfold orderStage. rewrite Ho, Hc. unfold whereStage. rewrite Hw, Hl. split; reflexivity.
Qed.

Lemma top_industries_in_table_order_witness :
  snd (executeCSVQuery String.compare 0 Generator.top_industries_sql Fixtures.survey)
    = Fixtures.survey /\
  qr_rows (fst (executeCSVQuery String.compare 0 Generator.top_industries_sql Fixtures.survey)) =
  map (project (snd (selectStage (normalize Generator.top_industries_sql) Fixtures.survey)))
      (firstn 10 (filter (whereKeep Fixtures.survey "variable_name = 'total income'")
                         (rows Fixtures.survey))).
Proof. apply top_industries_in_table_order. vm_compute. reflexivity. Defined.

(** X15: [executeQuery] runs the local engine on the loaded table exactly
    when local mode is on or the server answered with a non-ok status; a
    rejected [fetch] is reported as an error even with a table loaded, and
    without a table no local result is ever shown. *)
Theorem executeQuery_local_fallback lc el (useLocalCSV : bool)
  (response : Generator.fetchOutcome) (sqlQuery : string) (t : CSVData) :
  (Generator.executeQuery lc el useLocalCSV response sqlQuery (Some t) =
     Generator.Shown Generator.FromLocal (fst (executeCSVQuery lc el sqlQuery t)) <->
   useLocalCSV = true \/ exists body, response = Generator.Fetched false body) /\
  (forall r, Generator.executeQuery lc el useLocalCSV response sqlQuery None
             <> Generator.Shown Generator.FromLocal r).
Proof.
  split.
  - destruct useLocalCSV; simpl.
    + split; [intros _; left; reflexivity | intros _; reflexivity].
    + destruct response as [m | [|] body]; simpl.
      * split; [discriminate | intros [H | [b H]]; discriminate].
      * destruct body as [m | r]; [destruct (String.eqb m "")|];
          (split; [discriminate | intros [H | [b H]]; discriminate]).
      * split; [intros _; right; exists body; reflexivity | intros _; reflexivity].
  - intros r. destruct useLocalCSV; simpl; [discriminate|].
    destruct response as [m | [|] [m | r']]; simpl; try discriminate.
    destruct (String.eqb m ""); discriminate.
Qed.

(** *** [getCSVSchema] *)







(** *** [TextProcessor] *)

Lemma upper_char_idem (c : ascii) : upper_char (upper_char c) = upper_char c.
Proof. destruct c as [[] [] [] [] [] [] [] []]; reflexivity. Qed.

Lemma lower_upper_char (c : ascii) : lower_char (upper_char c) = lower_char c.
Proof. destruct c as [[] [] [] [] [] [] [] []]; reflexivity. Qed.

Lemma is_space_lower_char (c : ascii) : is_space (lower_char c) = is_space c.
Proof. destruct c as [[] [] [] [] [] [] [] []]; reflexivity. Qed.

Lemma is_space_upper_char (c : ascii) : is_space (upper_char c) = is_space c.
Proof. destruct c as [[] [] [] [] [] [] [] []]; reflexivity. Qed.

Lemma is_word_upper_char (c : ascii) : is_word (upper_char c) = is_word c.
Proof. destruct c as [[] [] [] [] [] [] [] []]; reflexivity. Qed.

Lemma titleCase_go_idem (l : list ascii) (b : bool) :
  Text.titleCase_go (Text.titleCase_go l b) b = Text.titleCase_go l b.
Proof.
  revert b. induction l as [|c l IH]; intros b; simpl; [reflexivity|].
  destruct b, (is_space c) eqn:Es, (is_word c) eqn:Ew; simpl;
    rewrite ?is_space_lower_char, ?is_space_upper_char, ?is_word_upper_char, ?Es, ?Ew; simpl;
    rewrite ?lower_char_idem, ?upper_char_idem, IH; reflexivity.
Qed.

Lemma titleCase_go_lower (l : list ascii) (b : bool) :
  map lower_char (Text.titleCase_go l b) = map lower_char l.
Proof.
  revert b. induction l as [|c l IH]; intros b; simpl; [reflexivity|].
  destruct (b && negb (is_space c)); [|destruct (is_word c)]; simpl;
    rewrite ?lower_char_idem, ?lower_upper_char, IH; reflexivity.
Qed.

(** X17: Title Case is idempotent and changes only the case of letters. *)
Theorem titleCase_idempotent_case_only (text : string) :
  Text.titleCase (Text.titleCase text) = Text.titleCase text /\
  toLowerCase (Text.titleCase text) = toLowerCase text.
Proof.
  unfold Text.titleCase, toLowerCase. rewrite chars_of_chars. split.
  - rewrite titleCase_go_idem. reflexivity.
  - rewrite titleCase_go_lower. reflexivity.
Qed.

Lemma split_chars_length (sep : ascii) (l : list ascii) :
  length (split_chars sep l) = S (count_occ ascii_dec l sep).
Proof.
  induction l as [|c l IH]; simpl; [reflexivity|].
  destruct (Ascii.eqb_spec c sep) as [E | E]; destruct (ascii_dec c sep); try congruence.
  - simpl. rewrite IH. reflexivity.
  - destruct (split_chars sep l) eqn:Es; [exfalso; exact (split_chars_nonempty _ _ Es)|].
    simpl in *. exact IH.
Qed.

(** X18: for a non-blank text, the Line Count result is one more than the
    number of line feeds. *)
Theorem line_count_is_newlines_plus_one (text : string) :
  String.eqb (trim text) "" = false ->
  In ("Line Count", Text.VNum (S (count_occ ascii_dec (chars text) (ascii_of_nat 10))))
     (Text.processText text).
Proof.
  intros H. unfold Text.processText. rewrite H.
  do 6 right. left. unfold split. rewrite length_map, split_chars_length. reflexivity.
Qed.

Lemma line_count_is_newlines_plus_one_witness :
  In ("Line Count", Text.VNum (S (count_occ ascii_dec (chars ("a" ++ Schema.nl ++ "b")%string)
                                     (ascii_of_nat 10))))
     (Text.processText ("a" ++ Schema.nl ++ "b")%string).
Proof. apply line_count_is_newlines_plus_one. vm_compute. reflexivity. Defined.

(** *** Where the result comes from *)

Lemma selectStage_columns_in_headers (nq : string) (t : CSVData) :
  headers t <> [] -> Forall (fun c => In c (headers t)) (fst (selectStage nq t)).
Proof.
  intros Hne. apply Forall_forall. intros c Hc. unfold selectStage in Hc.
  destruct (select_capture nq) as [g|]; [destruct (String.eqb (trim g) "*")|]; simpl in Hc;
    try exact Hc.
  apply in_map_iff in Hc as [i [<- Hi]]. apply in_map_iff in Hi as [col [<- _]].
  apply nth_In.
  destruct (headerIndex (headers t) col) as [i|] eqn:E.
  - apply (findIndex_lt _ _ _ E).
  - destruct (headers t); [congruence | simpl; lia].
Qed.

(** X19: on a table with at least one header, every column a SELECT query
    reports is one of the table's headers. *)
Theorem selected_columns_are_headers lc el (q : string) (t : CSVData) :
  headers t <> [] -> includes (normalize q) "select" = true ->
  Forall (fun c => In c (headers t)) (columns (fst (executeCSVQuery lc el q t))).
Proof.
  intros Hne Hs. rewrite (execute_pipeline lc el q t Hs). simpl.
  apply selectStage_columns_in_headers, Hne.
Qed.

Lemma selected_columns_are_headers_witness :
  Forall (fun c => In c (headers Fixtures.t1))
    (columns (fst (executeCSVQuery String.compare 0 "select value, nothere from t" Fixtures.t1))).
Proof.
  apply selected_columns_are_headers; [discriminate | vm_compute; reflexivity].
Defined.

Lemma whereStage_in (nq : string) (t : CSVData) (r : list string) :
  In r (deref (whereStage nq t) t) ->
  In r (rows t) /\ forall wc, where_capture nq = Some wc -> whereKeep t wc r = true.
Proof.
  unfold whereStage. destruct (where_capture nq) as [wc|]; simpl.
  - intros H. apply filter_In in H as [Hr Hk]. split; [exact Hr|]. intros wc' [= <-]. exact Hk.
  - intros H. split; [exact H | discriminate].
Qed.

(** X20: every row of a SELECT result is the projection, on the selected
    column indices, of a row of the table that passes the WHERE test. *)
Theorem result_rows_come_from_table lc el (q : string) (t : CSVData) :
  includes (normalize q) "select" = true ->
  Forall (fun row => exists r, In r (rows t) /\
            (forall wc, where_capture (normalize q) = Some wc -> whereKeep t wc r = true) /\
            row = map (fun i => cell r i) (snd (selectStage (normalize q) t)))
    (qr_rows (fst (executeCSVQuery lc el q t))).
Proof.
  intros Hs. destruct (execute_rows lc el q t Hs) as [surv [Hin [_ ->]]]. simpl.
  apply Forall_forall. intros row Hrow. apply in_map_iff in Hrow as [r [<- Hr]].
  destruct (whereStage_in _ _ _ (Hin r Hr)) as [H1 H2].
  exists r. split; [exact H1 | split; [exact H2 | reflexivity]].
Qed.

Lemma result_rows_come_from_table_witness :
  Forall (fun row => exists r, In r (rows Fixtures.t1) /\
            (forall wc, where_capture (normalize "select name from t where value = 1")
                          = Some wc -> whereKeep Fixtures.t1 wc r = true) /\
            row = map (fun i => cell r i)
                    (snd (selectStage (normalize "select name from t where value = 1") Fixtures.t1)))
    (qr_rows (fst (executeCSVQuery String.compare 0 "select name from t where value = 1"
                     Fixtures.t1))).
Proof. apply result_rows_come_from_table. vm_compute. reflexivity. Defined.

(** *** Word Count *)

Lemma split_ws_go_first (r : list ascii) :
  match Text.split_ws_go r false with
  | w :: _ => match r with
              | [] => w = []
              | d :: _ => if is_space d then w = [] else w <> []
              end
  | [] => False
  end.
Proof.
  destruct r as [|d r']; simpl; [reflexivity|].
  destruct (is_space d); [reflexivity|].
  destruct (Text.split_ws_go r' false); discriminate.
Qed.

Lemma word_runs_flag (l : list ascii) :
  TextReading.word_runs l true =
  TextReading.word_runs l false + match l with c :: _ => if is_space c then 0 else 1 | [] => 0 end.
Proof. destruct l as [|c r]; simpl; [reflexivity|]. destruct (is_space c); lia. Qed.

Lemma split_ws_go_words (l : list ascii) (b : bool) :
  length (filter (fun p => Nat.ltb 0 (length p)) (Text.split_ws_go l b))
  = TextReading.word_runs l true.
Proof.
  revert b. induction l as [|c r IH]; intros b; simpl; [reflexivity|].
  destruct (is_space c) eqn:Es.
  - destruct b; simpl; apply IH.
  - pose proof (split_ws_go_first r) as Hf. pose proof (IH false) as IHf.
    destruct (Text.split_ws_go r false) as [|w ws]; [destruct Hf|]. simpl in *.
    rewrite word_runs_flag in IHf.
    destruct r as [|d r'].
    + subst w. simpl in *. lia.
    + destruct (is_space d).
      * subst w. simpl in *. lia.
      * destruct w as [|x w]; [congruence|]. simpl in *. lia.
Qed.

Lemma drop_space_spaces (l : list ascii) :
  exists a, Forall (fun c => is_space c = true) a /\ l = a ++ drop_space l.
Proof.
  induction l as [|c l [a [Ha E]]]; simpl.
  - exists []. split; [constructor | reflexivity].
  - destruct (is_space c) eqn:Es.
    + exists (c :: a). split; [constructor; assumption | simpl; rewrite <- E; reflexivity].
    + exists []. split; [constructor | reflexivity].
Qed.

Lemma word_runs_space_prefix (a m : list ascii) :
  Forall (fun c => is_space c = true) a ->
  TextReading.word_runs (a ++ m) true = TextReading.word_runs m true.
Proof. induction 1 as [|c a Hc _ IH]; simpl; [reflexivity|]. rewrite Hc. exact IH. Qed.

Lemma word_runs_space_suffix (m s : list ascii) (b : bool) :
  Forall (fun c => is_space c = true) s ->
  TextReading.word_runs (m ++ s) b = TextReading.word_runs m b.
Proof.
  intros Hs. revert b. induction m as [|c m IH]; intros b; simpl.
  - revert b. induction Hs as [|c s Hc _ IHs]; intros b; simpl; [reflexivity|].
    rewrite Hc. apply IHs.
  - destruct (is_space c); rewrite IH; reflexivity.
Qed.

Lemma word_runs_trim (l : list ascii) :
  TextReading.word_runs (trim_chars l) true = TextReading.word_runs l true.
Proof.
  unfold trim_chars.
  destruct (drop_space_spaces l) as [a [Ha Ea]].
  destruct (drop_space_spaces (rev (drop_space l))) as [a' [Ha' Ea']].
  assert (Em : drop_space l = rev (drop_space (rev (drop_space l))) ++ rev a').
  { rewrite <- rev_app_distr, <- Ea', rev_involutive. reflexivity. }
  transitivity (TextReading.word_runs (drop_space l) true).
  - rewrite Em at 2. symmetry. apply word_runs_space_suffix, Forall_rev, Ha'.
  - rewrite Ea at 2. symmetry. apply word_runs_space_prefix, Ha.
Qed.

Lemma length_filter_map {A B} (f : B -> bool) (g : A -> B) (l : list A) :
  length (filter f (map g l)) = length (filter (fun x => f (g x)) l).
Proof. induction l as [|x l IH]; simpl; [reflexivity|]. destruct (f (g x)); simpl; congruence. Qed.

Lemma length_of_chars (p : list ascii) : String.length (of_chars p) = length p.
Proof. induction p as [|c p IH]; simpl; congruence. Qed.

(** X21: for a non-blank text, Word Count is the number of maximal runs of
    non-white-space characters. *)
Theorem word_count_is_word_runs (text : string) :
  String.eqb (trim text) "" = false ->
  In ("Word Count", Text.VNum (TextReading.word_runs (chars text) true)) (Text.processText text).
Proof.
  intros H. unfold Text.processText. rewrite H.
  right. left. do 2 f_equal.
  unfold Text.split_ws, trim. rewrite chars_of_chars, length_filter_map.
  rewrite (filter_ext (fun x => Nat.ltb 0 (String.length (of_chars x)))
                      (fun p => Nat.ltb 0 (length p)))
    by (intros x; rewrite length_of_chars; reflexivity).
  rewrite split_ws_go_words. apply word_runs_trim.
Qed.

Lemma word_count_is_word_runs_witness :
  In ("Word Count", Text.VNum (TextReading.word_runs (chars " two  words ") true))
     (Text.processText " two  words ").
Proof. apply word_count_is_word_runs. vm_compute. reflexivity. Defined.

Lemma drop_space_trim_chars (l : list ascii) : drop_space (trim_chars l) = trim_chars l.
Proof.
  unfold trim_chars. set (k := drop_space (rev (drop_space l))).
  destruct (rev k) as [|a r] eqn:Ek; [reflexivity|].
  destruct (drop_space_suffix (rev (drop_space l))) as [p Hp]. fold k in Hp.
  assert (Hm : drop_space l = rev k ++ rev p)
    by (rewrite <- rev_app_distr, <- Hp, rev_involutive; reflexivity).
  rewrite Ek in Hm. simpl in Hm. apply drop_space_head in Hm. simpl. rewrite Hm. reflexivity.
Qed.

Lemma trim_chars_last (l p : list ascii) (c : ascii) :
  trim_chars l = p ++ [c] -> is_space c = false.
Proof.
  unfold trim_chars. intros E.
  destruct (drop_space (rev (drop_space l))) as [|a k] eqn:Ek; simpl in E.
  - destruct p; discriminate.
  - apply app_inj_tail in E as [_ ->]. exact (drop_space_head _ _ _ Ek).
Qed.

Lemma split_ws_go_cons (c : ascii) (r : list ascii) (b : bool) :
  Text.split_ws_go (c :: r) b =
  if is_space c then (if b then Text.split_ws_go r true else [] :: Text.split_ws_go r true)
  else match Text.split_ws_go r false with
       | w :: ws => (c :: w) :: ws
       | [] => [[c]]
       end.
Proof. reflexivity. Qed.

Lemma split_ws_go_pieces (l : list ascii) :
  l <> [] -> (forall p c, l = p ++ [c] -> is_space c = false) ->
  Forall (fun w => w <> []) (Text.split_ws_go l true) /\
  forall b, Forall (fun w => w <> []) (tl (Text.split_ws_go l b)).
Proof.
  induction l as [|c r IH]; intros Hne Hlast; [congruence|].
  destruct r as [|d r'].
  - pose proof (Hlast [] c eq_refl) as Hc. simpl. rewrite Hc.
    split; [repeat constructor; discriminate | intros b; constructor].
  - assert (Hr : forall p x, d :: r' = p ++ [x] -> is_space x = false)
      by (intros p x E; apply (Hlast (c :: p) x); rewrite E; reflexivity).
    destruct (IH ltac:(discriminate) Hr) as [IH1 IH2].
    split.
    + rewrite (split_ws_go_cons c (d :: r')). destruct (is_space c); [exact IH1|].
      specialize (IH2 false).
      destruct (Text.split_ws_go (d :: r') false) as [|w ws]; simpl in *.
      * repeat constructor. discriminate.
      * constructor; [discriminate | exact IH2].
    + intros b. rewrite (split_ws_go_cons c (d :: r')). destruct (is_space c).
      * destruct b; [apply IH2 | exact IH1].
      * specialize (IH2 false).
        destruct (Text.split_ws_go (d :: r') false) as [|w ws]; simpl in *;
          [constructor | exact IH2].
Qed.

Lemma filter_nonempty_id (L : list (list ascii)) :
  Forall (fun w => w <> []) L -> filter (fun p => Nat.ltb 0 (length p)) L = L.
Proof.
  induction 1 as [|w L Hw _ IH]; simpl; [reflexivity|].
  destruct w as [|x w]; [congruence|]. simpl. rewrite IH. reflexivity.
Qed.

(** X22: for a non-blank text, Reading Time is the Word Count divided by
    200, rounded up, followed by [" min"]. *)
Theorem reading_time_from_word_count (text : string) :
  String.eqb (trim text) "" = false ->
  In ("Reading Time",
      Text.VStr (Schema.string_of_nat ((TextReading.word_runs (chars text) true + 199) / 200)
                 ++ " min")%string)
     (Text.processText text).
Proof.
  intros H. unfold Text.processText. rewrite H.
  do 7 right. left. unfold Text.ceil_div200.
  replace (length (Text.split_ws (trim text))) with (TextReading.word_runs (chars text) true);
    [reflexivity|].
  unfold Text.split_ws, trim. rewrite chars_of_chars, length_map.
  rewrite <- word_runs_trim, <- (split_ws_go_words _ false).
  pose proof (drop_space_trim_chars (chars text)) as Hd.
  pose proof (trim_chars_last (chars text)) as Hlast.
  unfold trim in H.
  remember (trim_chars (chars text)) as m eqn:Em.
  assert (Hne : m <> []) by (intros E; rewrite E in H; discriminate).
  destruct (split_ws_go_pieces m Hne Hlast) as [_ Htl].
  specialize (Htl false).
  destruct m as [|c r]; [congruence|].
  pose proof (drop_space_head _ _ _ Hd) as Hc.
  assert (Hall : Forall (fun w => w <> []) (Text.split_ws_go (c :: r) false)).
  { cbn [Text.split_ws_go] in *. rewrite Hc in *.
    destruct (Text.split_ws_go r false) as [|w ws]; simpl in *.
    - constructor; [discriminate | constructor].
    - constructor; [discriminate | exact Htl]. }
  rewrite (filter_nonempty_id _ Hall). reflexivity.
Qed.

Lemma reading_time_from_word_count_witness :
  In ("Reading Time",
      Text.VStr (Schema.string_of_nat
                   ((TextReading.word_runs (chars " two  words ") true + 199) / 200)
                 ++ " min")%string)
     (Text.processText " two  words ").
Proof. apply reading_time_from_word_count. vm_compute. reflexivity. Defined.

(** *** Multi-line records of [parseCSV] *)

Lemma of_chars_app (a b : list ascii) : of_chars (a ++ b) = String.append (of_chars a) (of_chars b).
Proof. induction a as [|c a IH]; [reflexivity|]. unfold of_chars in *. simpl. rewrite IH. reflexivity. Qed.

Lemma split_chars_app_sep (sep : ascii) (A B : list ascii) :
  split_chars sep (A ++ sep :: B) = split_chars sep A ++ split_chars sep B.
Proof.
  induction A as [|c A IH]; simpl; [rewrite Ascii.eqb_refl; reflexivity|].
  destruct (Ascii.eqb c sep); [rewrite IH; reflexivity|].
  rewrite IH. destruct (split_chars sep A) as [|w ws] eqn:E;
    [exfalso; exact (split_chars_nonempty _ _ E) | reflexivity].
Qed.

Lemma split_chars_no_sep (sep : ascii) (A : list ascii) :
  ~ In sep A -> split_chars sep A = [A].
Proof.
  induction A as [|c A IH]; intros H; simpl; [reflexivity|].
  destruct (Ascii.eqb_spec c sep) as [E | E]; [exfalso; apply H; left; exact E|].
  rewrite IH by (intros H'; apply H; right; exact H'). reflexivity.
Qed.

Lemma join_split (l : list ascii) : CSVAnalysis.join (split_chars CSVAnalysis.LF l) = l.
Proof.
  induction l as [|c l IH]; [reflexivity|]. cbn [split_chars].
  destruct (split_chars CSVAnalysis.LF l) as [|w ws] eqn:Es;
    [exfalso; exact (split_chars_nonempty _ _ Es)|].
  destruct (Ascii.eqb_spec c CSVAnalysis.LF) as [E | E].
  - subst c.
    change (CSVAnalysis.join ([] :: w :: ws))
      with ([] ++ CSVAnalysis.LF :: CSVAnalysis.join (w :: ws)).
    rewrite IH. reflexivity.
  - destruct ws as [|w2 ws]; simpl in *; rewrite IH; reflexivity.
Qed.

Lemma cq_cons (c : ascii) (l : list ascii) :
  CSVAnalysis.cq (c :: l) = (if Ascii.eqb c quote then 1 else 0) + CSVAnalysis.cq l.
Proof. unfold CSVAnalysis.cq. simpl. destruct (Ascii.eqb c quote); reflexivity. Qed.

Lemma parity_ok_cons (c : ascii) (w : list ascii) (ws : list (list ascii)) (qc : nat) :
  CSVAnalysis.parity_ok (w :: ws) ((if Ascii.eqb c quote then 1 else 0) + qc) ->
  CSVAnalysis.parity_ok ((c :: w) :: ws) qc.
Proof.
  destruct ws as [|w2 ws]; simpl; rewrite cq_cons;
    replace (qc + ((if Ascii.eqb c quote then 1 else 0) + CSVAnalysis.cq w))
      with ((if Ascii.eqb c quote then 1 else 0) + qc + CSVAnalysis.cq w) by lia; auto.
Qed.

Lemma parity_split (L : list ascii) (qc : nat) :
  CSVAnalysis.nl_scan L (Nat.odd qc) = Some false ->
  CSVAnalysis.parity_ok (split_chars CSVAnalysis.LF L) qc.
Proof.
  revert qc. induction L as [|c L IH]; intros qc H; simpl in *.
  - injection H as H. rewrite Nat.add_0_r. unfold Nat.odd in H.
    destruct (Nat.even qc); [reflexivity | discriminate].
  - destruct (Ascii.eqb c CSVAnalysis.LF) eqn:Ec.
    + destruct (Nat.odd qc) eqn:Eo; [|discriminate].
      pose proof (IH qc ltac:(rewrite Eo; exact H)) as IHq.
      destruct (split_chars CSVAnalysis.LF L) as [|w ws] eqn:Es;
        [exfalso; exact (split_chars_nonempty _ _ Es)|].
      simpl. rewrite Nat.add_0_r. split; [unfold Nat.odd in Eo; destruct (Nat.even qc); easy | exact IHq].
    + assert (Hs : CSVAnalysis.parity_ok (split_chars CSVAnalysis.LF L)
                     ((if Ascii.eqb c quote then 1 else 0) + qc)).
      { apply IH. destruct (Ascii.eqb c quote); simpl; [|exact H].
        rewrite Nat.odd_succ, <- Nat.negb_odd. exact H. }
      destruct (split_chars CSVAnalysis.LF L) as [|w ws] eqn:Es;
        [exfalso; exact (split_chars_nonempty _ _ Es)|].
      apply parity_ok_cons, Hs.
Qed.

Lemma countQuotes_of_chars (l : list ascii) : countQuotes (of_chars l) = CSVAnalysis.cq l.
Proof. unfold countQuotes. rewrite chars_of_chars. reflexivity. Qed.

Lemma newline_line (cur p : list ascii) :
  String.append (of_chars cur) (String.append newline (of_chars p))
  = of_chars (cur ++ CSVAnalysis.LF :: p).
Proof. rewrite of_chars_app. reflexivity. Qed.

Lemma parseRows_gathering_step (W : nat) (cur line : string) (qc : nat) (rest : list string) :
  parseRows W (Gathering cur qc) (line :: rest) =
  if Nat.even (qc + countQuotes line)
  then pushRow W (parseCSVLine (String.append cur (String.append newline line))) ++ parseRows W Idle rest
  else parseRows W (Gathering (String.append cur (String.append newline line)) (qc + countQuotes line)) rest.
Proof. reflexivity. Qed.

Lemma parseRows_idle_step (W : nat) (line : string) (rest : list string) :
  parseRows W Idle (line :: rest) =
  if String.eqb (trim line) "" then parseRows W Idle rest
  else if Nat.even (countQuotes line)
  then pushRow W (parseCSVLine line) ++ parseRows W Idle rest
  else parseRows W (Gathering line (countQuotes line)) rest.
Proof. reflexivity. Qed.

Lemma gathering_rows (W : nat) (rest : list string) (ps : list (list ascii)) :
  forall cur qc, ps <> [] -> CSVAnalysis.parity_ok ps qc ->
  parseRows W (Gathering (of_chars cur) qc) (map of_chars ps ++ rest) =
  pushRow W (parseCSVLine (of_chars (cur ++ CSVAnalysis.LF :: CSVAnalysis.join ps)))
  ++ parseRows W Idle rest.
Proof.
  induction ps as [|p ps IH]; intros cur qc Hne Hp; [congruence|].
  destruct ps as [|p2 ps].
  - simpl in Hp. cbn [map app]. rewrite parseRows_gathering_step, countQuotes_of_chars, Hp, newline_line.
    reflexivity.
  - destruct Hp as [Hodd Hp]. cbn [map app]. rewrite parseRows_gathering_step.
    rewrite countQuotes_of_chars, Hodd, newline_line.
    pose proof (IH (cur ++ CSVAnalysis.LF :: p) _ ltac:(discriminate) Hp) as IH'.
    cbn [map app] in IH'. rewrite IH'.
    rewrite <- app_assoc. reflexivity.
Qed.

Lemma drop_space_snoc (l : list ascii) (c : ascii) :
  is_space c = false -> drop_space (l ++ [c]) <> [].
Proof.
  intros Hc. induction l as [|d l IH]; simpl; [rewrite Hc; discriminate|].
  destruct (is_space d); [exact IH | discriminate].
Qed.

Lemma quote_line_nonblank (w : list ascii) : String.eqb (trim (of_chars (quote :: w))) "" = false.
Proof.
  unfold trim. rewrite chars_of_chars. unfold trim_chars.
  assert (Hq : is_space quote = false) by reflexivity.
  cbn [drop_space]. rewrite Hq. cbn [rev].
  destruct (drop_space (rev w ++ [quote])) as [|a k] eqn:E;
    [exfalso; exact (drop_space_snoc _ _ Hq E)|].
  cbn [rev]. destruct (rev k ++ [a]) eqn:E2; [destruct (rev k); discriminate | reflexivity].
Qed.

Lemma record_rows (W : nat) (L' : list ascii) (rest : list string) :
  CSVAnalysis.nl_scan (quote :: L') false = Some false ->
  parseRows W Idle (map of_chars (split_chars CSVAnalysis.LF (quote :: L')) ++ rest) =
  pushRow W (parseCSVLine (of_chars (quote :: L'))) ++ parseRows W Idle rest.
Proof.
  intros Hscan. pose proof (parity_split (quote :: L') 0 Hscan) as Hp.
  pose proof (join_split (quote :: L')) as HJ.
  assert (Hs : split_chars CSVAnalysis.LF (quote :: L') =
               match split_chars CSVAnalysis.LF L' with
               | w :: ws => (quote :: w) :: ws
               | [] => [[quote]]
               end) by reflexivity.
  destruct (split_chars CSVAnalysis.LF L') as [|w ws] eqn:E;
    [exfalso; exact (split_chars_nonempty _ _ E)|].
  rewrite Hs in Hp, HJ |- *. rewrite <- HJ.
  cbn [map app]. rewrite parseRows_idle_step, quote_line_nonblank, countQuotes_of_chars.
  destruct ws as [|p2 ws].
  - cbn [CSVAnalysis.parity_ok] in Hp. rewrite Nat.add_0_l in Hp. rewrite Hp. reflexivity.
  - destruct Hp as [Hodd Hp]. rewrite Nat.add_0_l in Hodd, Hp. rewrite Hodd.
    rewrite (gathering_rows W rest (p2 :: ws) (quote :: w) _ ltac:(discriminate) Hp).
    reflexivity.
Qed.

Lemma nl_scan_app (A B : list ascii) (b : bool) :
  CSVAnalysis.nl_scan (A ++ B) b =
  match CSVAnalysis.nl_scan A b with Some b' => CSVAnalysis.nl_scan B b' | None => None end.
Proof.
  revert b. induction A as [|c A IH]; intros b; simpl; [reflexivity|].
  destruct (Ascii.eqb c CSVAnalysis.LF); [destruct b; [apply IH | reflexivity]|].
  destruct (Ascii.eqb c quote); apply IH.
Qed.

Lemma nl_scan_escape (x rest : list ascii) :
  CSVAnalysis.nl_scan (CSVWriter.escape x ++ rest) true = CSVAnalysis.nl_scan rest true.
Proof.
  induction x as [|c x IH]; [reflexivity|]. cbn [CSVWriter.escape].
  destruct (Ascii.eqb c quote) eqn:Ec.
  - exact IH.
  - cbn [app CSVAnalysis.nl_scan]. rewrite Ec.
    destruct (Ascii.eqb c CSVAnalysis.LF); exact IH.
Qed.

Lemma chars_quoteField (f : string) :
  chars (CSVWriter.quoteField f) = quote :: CSVWriter.escape (chars f) ++ [quote].
Proof. unfold CSVWriter.quoteField. apply chars_of_chars. Qed.

Lemma chars_quoteLine_cons (f : string) (fs : list string) :
  chars (CSVWriter.quoteLine (f :: fs)) =
  quote :: CSVWriter.escape (chars f) ++ [quote] ++
       match fs with [] => [] | _ => ","%char :: chars (CSVWriter.quoteLine fs) end.
Proof.
  destruct fs as [|g fs].
  - unfold CSVWriter.quoteLine. cbn [map String.concat]. rewrite chars_quoteField, app_nil_r.
    reflexivity.
  - change (CSVWriter.quoteLine (f :: g :: fs))
      with (String.append (CSVWriter.quoteField f) (String.append "," (CSVWriter.quoteLine (g :: fs)))).
    rewrite !chars_app, chars_quoteField. simpl. rewrite <- app_assoc. reflexivity.
Qed.

Lemma nl_scan_quoteLine (fs : list string) (rest : list ascii) :
  CSVAnalysis.nl_scan (chars (CSVWriter.quoteLine fs) ++ rest) false = CSVAnalysis.nl_scan rest false.
Proof.
  induction fs as [|f fs IH]; [reflexivity|].
  rewrite chars_quoteLine_cons. cbn [app CSVAnalysis.nl_scan].
  replace (Ascii.eqb quote CSVAnalysis.LF) with false by reflexivity.
  rewrite Ascii.eqb_refl. cbn [negb].
  rewrite <- !app_assoc, nl_scan_escape. cbn [app CSVAnalysis.nl_scan].
  replace (Ascii.eqb quote CSVAnalysis.LF) with false by reflexivity.
  rewrite Ascii.eqb_refl. cbn [negb].
  destruct fs as [|g fs]; [reflexivity|].
  cbn [app CSVAnalysis.nl_scan].
  replace (Ascii.eqb ","%char CSVAnalysis.LF) with false by reflexivity.
  replace (Ascii.eqb ","%char quote) with false by reflexivity.
  exact IH.
Qed.

Lemma in_escape (x : list ascii) (c : ascii) : In c (CSVWriter.escape x) -> c = quote \/ In c x.
Proof.
  induction x as [|d x IH]; simpl; [intros []|].
  destruct (Ascii.eqb_spec d quote) as [-> | E]; simpl.
  - intros [<- | [<- | H]]; [left; reflexivity | left; reflexivity |].
    destruct (IH H); [left | right; right]; assumption.
  - intros [<- | H]; [right; left; reflexivity|].
    destruct (IH H); [left | right; right]; assumption.
Qed.

Lemma quoteLine_no_LF (fs : list string) :
  Forall (fun h => ~ In CSVAnalysis.LF (chars h)) fs ->
  ~ In CSVAnalysis.LF (chars (CSVWriter.quoteLine fs)).
Proof.
  induction 1 as [|f fs Hf _ IH]; [intros []|].
  rewrite chars_quoteLine_cons. intros H. simpl in H.
  destruct H as [H | H]; [discriminate H|].
  apply in_app_or in H as [H | H].
  - destruct (in_escape _ _ H) as [E | E]; [discriminate E | exact (Hf E)].
  - destruct H as [H | H]; [discriminate H|].
    destruct fs as [|g fs]; [destruct H|].
    destruct H as [H | H]; [discriminate H | exact (IH H)].
Qed.

Lemma chars_quoteLine_head (fs : list string) :
  fs <> [] -> exists L', chars (CSVWriter.quoteLine fs) = quote :: L'.
Proof.
  destruct fs as [|f fs]; [congruence|]. intros _. rewrite chars_quoteLine_cons. eexists. reflexivity.
Qed.

Lemma records_rows (W : nat) (records : list (list string)) :
  Forall (fun fs => fs <> []) records ->
  parseRows W Idle
    (map of_chars (concat (map (fun fs => split_chars CSVAnalysis.LF (chars (CSVWriter.quoteLine fs)))
                               records))) =
  map (fun fs => firstn W (map trim fs ++ repeat "" (W - length fs))) records.
Proof.
  induction 1 as [|fs records Hfs _ IH]; [reflexivity|].
  cbn [map concat]. rewrite map_app.
  destruct (chars_quoteLine_head fs Hfs) as [L' HL].
  pose proof (nl_scan_quoteLine fs []) as Hscan. rewrite app_nil_r, HL in Hscan.
  rewrite HL, (record_rows W L' _ Hscan), IH, <- HL, of_chars_chars.
  unfold parseCSVLine. rewrite (go_quoteLine fs [] Hfs). simpl.
  unfold pushRow. rewrite length_map.
  destruct fs as [|f fs]; [congruence|]. reflexivity.
Qed.

Lemma split_quoteRecords (A : list ascii) (records : list (list string)) :
  split_chars CSVAnalysis.LF (A ++ chars (CSVWriter.quoteRecords records)) =
  split_chars CSVAnalysis.LF A ++
  concat (map (fun fs => split_chars CSVAnalysis.LF (chars (CSVWriter.quoteLine fs))) records).
Proof.
  revert A. induction records as [|fs records IH]; intros A; simpl.
  - rewrite !app_nil_r. reflexivity.
  - cbn [CSVWriter.quoteRecords]. rewrite !chars_app.
    change (chars newline) with [CSVAnalysis.LF]. simpl.
    rewrite split_chars_app_sep, IH. reflexivity.
Qed.

(** X23: a file written in standard CSV quoting (a header line whose fields
    hold no line feed, then records whose fields may hold line feeds, commas
    and quotes) is read back by [parseCSV] record by record, each record
    trimmed and cut or padded to the header width. *)
Theorem parseCSV_quoted_round_trip (headerFields : list string)
  (records : list (list string)) :
  headerFields <> [] ->
  Forall (fun fs => fs <> []) records ->
  Forall (fun h => ~ In (ascii_of_nat 10) (chars h)) headerFields ->
  parseCSV (CSVWriter.quoteCSV headerFields records) =
  mkCSVData (map trim headerFields)
    (map (fun fs => firstn (length headerFields)
                      (map trim fs ++ repeat "" (length headerFields - length fs)))
         records).
Proof.
  intros Hh Hr Hnl.
  unfold parseCSV, split, CSVWriter.quoteCSV.
  rewrite chars_app.
  change (ascii_of_nat 10) with CSVAnalysis.LF.
  rewrite split_quoteRecords, (split_chars_no_sep _ _ (quoteLine_no_LF _ Hnl)).
  cbn [app map]. rewrite of_chars_chars.
  assert (Hq : parseCSVLine (CSVWriter.quoteLine headerFields) = map trim headerFields).
  { unfold parseCSVLine. rewrite (go_quoteLine headerFields [] Hh). reflexivity. }
  rewrite Hq, length_map, records_rows by exact Hr. reflexivity.
Qed.

Lemma parseCSV_quoted_round_trip_witness :
  parseCSV (CSVWriter.quoteCSV ["a"; "b"]
              [[("x" ++ Schema.nl ++ "y")%string; (Schema.dq ++ ", z")%string]; [" 1 "]]) =
  mkCSVData (map trim ["a"; "b"])
    (map (fun fs => firstn (length ["a"; "b"])
                      (map trim fs ++ repeat "" (length ["a"; "b"] - length fs)))
         [[("x" ++ Schema.nl ++ "y")%string; (Schema.dq ++ ", z")%string]; [" 1 "]]).
Proof.
  apply parseCSV_quoted_round_trip.
  - discriminate.
  - repeat constructor; discriminate.
  - repeat constructor; vm_compute; intros H; repeat (destruct H as [H | H]; [discriminate H|]); exact H.
Defined.

End Extras.

(* ------------------------------------------------------------------ *)
(** ** Sanity examples of the embedding *)

Module EmbeddingExamples.
Import JS Regex Engine Loader Fixtures.

Example regex_select : option_map (group 1) (search select_re (chars "select a, b  from t"))
  = Some (Some "a, b").
Proof. vm_compute. reflexivity. Qed.
Example regex_where : option_map (group 1)
    (search where_re (chars "select * from t where x = 'y' limit 5")) = Some (Some "x = 'y'").
Proof. vm_compute. reflexivity. Qed.
Example regex_like : option_map (fun c => (group 1 c, group 2 c))
    (search like_re (chars "name like '%ab%'")) = Some (Some "name", Some "%ab%").
Proof. vm_compute. reflexivity. Qed.
Example regex_order : option_map (fun c => (group 1 c, group 2 c))
    (search order_re (chars "select * from t order by a desc limit 3")) = Some (Some "a", Some "desc").
Proof. vm_compute. reflexivity. Qed.
Example regex_limit : option_map (group 1) (search limit_re (chars "select * from t limit 42"))
  = Some (Some "42").
Proof. vm_compute. reflexivity. Qed.
Example regex_select_empty : option_map (group 1) (search select_re (chars "select  from"))
  = Some (Some "").
Proof. vm_compute. reflexivity. Qed.

Example engine_order : fst (executeCSVQuery String.compare 0 "SELECT * FROM t ORDER BY value" t1)
  = mkQueryResult ["Name"; "Value"] [["a"; "2"]; ["b"; "10"]; ["c"; "x"]] 3 0.
Proof. vm_compute. reflexivity. Qed.
Example engine_eq : fst (executeCSVQuery String.compare 0 "SELECT value FROM t WHERE name = 'B'" t1)
  = mkQueryResult ["Value"] [["10"]] 1 0.
Proof. vm_compute. reflexivity. Qed.
Example engine_like : fst (executeCSVQuery String.compare 0
    "SELECT nope, name FROM t WHERE name LIKE '%c%' LIMIT 1" t1)
  = mkQueryResult ["Name"; "Name"] [["c"; "c"]] 1 0.
Proof. vm_compute. reflexivity. Qed.
Example engine_order_desc_table : snd (executeCSVQuery String.compare 0
    "select * from t order by value desc" t1)
  = mkCSVData ["Name"; "Value"] [["c"; "x"]; ["b"; "10"]; ["a"; "2"]].
Proof. vm_compute. reflexivity. Qed.

Example parseFloat_values : num_is "  -1.5e1x" (-15) && num_is ".5" (1#2) && num_is "5." 5
  && num_is "1e" 1 && num_is "2E+2" 200 && num_is "12abc" 12 = true.
Proof. vm_compute. reflexivity. Qed.
Example parseFloat_special :
  (Num.parseFloat "-Infinity", Num.parseFloat "abc", Num.parseFloat ".", Num.parseFloat "")
  = (Some Num.NInf, None, None, None).
Proof. vm_compute. reflexivity. Qed.

Example loader_quotes_and_lines :
  parseCSV ("a,b,c" ++ nl ++ "1," ++ dq ++ "x," ++ dq ++ dq ++ "y" ++ dq ++ dq ++ dq ++ ",2"
    ++ nl ++ "  " ++ nl ++ "3," ++ dq ++ "p" ++ nl ++ "q" ++ dq ++ ",4,5,6" ++ nl ++ "7")
  = mkCSVData ["a"; "b"; "c"]
      [["1"; "x," ++ dq ++ "y" ++ dq; "2"]; ["3"; "p" ++ nl ++ "q"; "4"]; ["7"; ""; ""]].
Proof. vm_compute. reflexivity. Qed.

Example processText_sample : Text.processText ("Hello  world" ++ nl ++ "it's o'neil-x")
  = [("Character Count", Text.VNum 26); ("Word Count", Text.VNum 4);
     ("Uppercase", Text.VStr ("HELLO  WORLD" ++ nl ++ "IT'S O'NEIL-X"));
     ("Lowercase", Text.VStr ("hello  world" ++ nl ++ "it's o'neil-x"));
     ("Title Case", Text.VStr ("Hello  World" ++ nl ++ "It's O'neil-x"));
     ("Reversed", Text.VStr ("x-lien'o s'ti" ++ nl ++ "dlrow  olleH"));
     ("Line Count", Text.VNum 2); ("Reading Time", Text.VStr "1 min")].
Proof. vm_compute. reflexivity. Qed.
Example split_ws_edges : Text.split_ws " a  b " = [""; "a"; "b"; ""].
Proof. vm_compute. reflexivity. Qed.
Example generateSimpleSQL_samples :
  (Generator.generateSimpleSQL "Show the TOP industry", Generator.generateSimpleSQL "Show the TOP industries")
  = (Generator.top_industries_sql, "SELECT * FROM survey_data LIMIT 20").
Proof. vm_compute. reflexivity. Qed.
Example server_engine_eq : ServerEngine.executeCSVQuery 0 "SELECT value FROM t WHERE name = 'B'" t1
  = mkQueryResult ["Value"] [["10"]] 1 0.
Proof. vm_compute. reflexivity. Qed.
Example executeQuery_outcomes :
  (Generator.executeQuery String.compare 0 false (Generator.Fetched false (Generator.BodyError ""))
     "SELECT * FROM t WHERE name = 'b'" (Some t1),
   Generator.executeQuery String.compare 0 false (Generator.Fetched true (Generator.BodyError ""))
     "SELECT * FROM t" (Some t1),
   Generator.executeQuery String.compare 0 true (Generator.FetchRejects "down") "SELECT * FROM t" None)
  = (Generator.Shown Generator.FromLocal (mkQueryResult ["Name"; "Value"] [["b"; "10"]] 1 0),
     Generator.Shown Generator.FromServer (mkQueryResult [] [] 0 0),
     Generator.Failed "No CSV data available for local processing").
Proof. vm_compute. reflexivity. Qed.

End EmbeddingExamples.
